(** * driverlog: trip planning under Hours-of-Service rules

    A shallow embedding of the [trips] application (services.py, models.py,
    views.py) and the properties of its compliance planning engine.

    The source is read twice.
    - The modules named after the classes of the source read its formulas
      over the rationals [Q]: every arithmetic expression is kept as written
      and evaluated without rounding, the calendar has no end, and the
      library calls that the source does not guard succeed.  The properties
      of the schedule as a calculation are stated on this reading: what the
      hours add up to, which limits they keep, how entries and stops are
      ordered.
    - [Machine] reads the same code as the interpreter runs it: each float
      operation rounds to the nearest double ([Double.round]), list
      subscripts and date arithmetic raise out of range, and a library call
      outside a [try] can raise.  The properties that depend on a rounded
      value, on the calendar or on an exception are stated on this reading.

    Conventions of the embedding.
    - Infinities and NaN have no counterpart in either reading.
    - A [date] is a day number, the proleptic Gregorian ordinal of Python,
      and a [time] a wall-clock record.
    - Python exceptions are values of [exn]; code that can raise lives in the
      monad [py].
    - Dictionaries with a fixed key set become records whose fields carry the
      keys' names.
    - What other libraries decide is a parameter: the geodesic distance of
      geopy, the routing client and the outcome of its request, the field
      validation of the serializer, the current date and time. *)

From Stdlib Require Import QArith Qround Qminmax Qabs Qpower Lqa ZArith Lia.
From Stdlib Require Import Sorting.Sorted Sorting.Permutation.
From stdpp Require Import base option list sorting gmap strings pretty.

Open Scope Q_scope.

(** ** Python values and exceptions *)

Inductive exn : Type :=
| ZeroDivisionError
| ValidationError (message : string)
| Http404
| IndexError
| KeyError (key : string)
| TypeError (message : string)
| ValueError (message : string)
| OverflowError (message : string).

Inductive py (A : Type) : Type :=
| Ret (a : A)
| Raise (e : exn).

Arguments Ret {A} a.
Arguments Raise {A} e.

Definition py_bind {A B : Type} (m : py A) (k : A -> py B) : py B :=
  match m with
  | Ret a => k a
  | Raise e => Raise e
  end.

Notation "'do' x <- m ; k" := (py_bind m (fun x => k))
  (at level 10, x name, m at level 100, k at level 200).

Definition Qltb (x y : Q) : bool := negb (Qle_bool y x).

(** [a / b] on floats. *)
Definition py_div (a b : Q) : py Q :=
  if Qeq_bool b 0 then Raise ZeroDivisionError else Ret (a / b).

(** [a % m] on floats: the result takes the sign of [m]. *)
Definition py_mod (a m : Q) : Q := a - m * inject_Z (Qfloor (a / m)).

(** [int(x)]: truncation toward zero. *)
Definition py_int (x : Q) : Z := Z.quot (Qnum x) (Z.pos (Qden x)).

(** [math.ceil(x)]. *)
Definition math_ceil (x : Q) : Z := Qceiling x.

(** ** Dates and times *)

Definition date : Type := Z.

Record time : Type := mk_time {
  hour : Z;
  minute : Z;
  second : Z;
  microsecond : Z
}.

(** [time(h, m)]. *)
Definition time_hm (h m : Z) : time := mk_time h m 0 0.

Definition datetime : Type := (date * time)%type.

(** [datetime.combine(d, t)]. *)
Definition combine (d : date) (t : time) : datetime := (d, t).

(** ** Records of the planning engine *)

Record Location : Type := mk_Location {
  lat : Q;
  lng : Q;
  address : string
}.

Record RestStopData : Type := mk_RestStopData {
  stop_type : string;
  location : Location;
  scheduled_arrival : datetime;
  stop_duration_hours : Q;
  distance_from_start_miles : Q;
  is_mandatory : bool;
  hos_reason : string
}.

Record LogData : Type := mk_LogData {
  log_date : date;
  duty_status : string;
  start_time : time;
  duration_hours : Q;
  remarks : string
}.

Record ComplianceSummary : Type := mk_ComplianceSummary {
  total_drive_hours : Q;
  total_on_duty_hours : Q;
  days_required : Z;
  cycle_hours_used : Q
}.

Record CompliancePlan : Type := mk_CompliancePlan {
  rest_stops : list RestStopData;
  eld_logs : list LogData;
  total_days : Z;
  compliance_summary : ComplianceSummary
}.

(** The fields of [models.Trip] that the engine and the views read or write.
    [route_coordinates] is the polyline as [[lat, lng]] pairs. *)
Record Trip : Type := mk_Trip {
  driver : Z;
  status : string;
  total_distance_miles : Q;
  estimated_drive_time_hours : Q;
  current_cycle_used_hours : Q;
  route_coordinates : list (Q * Q);
  trip_start_time : option datetime;
  trip_end_time : option datetime
}.

(** ** services.ELDComplianceService *)

Module ELDComplianceService.

Definition MAX_DRIVING_HOURS_DAILY : Q := 11.
Definition MAX_ON_DUTY_HOURS_DAILY : Q := 14.
Definition MAX_CYCLE_HOURS : Q := 70.
Definition MANDATORY_BREAK_HOURS : Q := 1 # 2.
Definition MIN_OFF_DUTY_HOURS : Q := 10.

(** [route_coordinates[-1]]. *)
Definition last_point (route : list (Q * Q)) : Q * Q :=
  List.last route (0, 0).

(** [route_coordinates[index]] for an index the caller keeps in range. *)
Definition point_at (route : list (Q * Q)) (index : Z) : Q * Q :=
  List.nth (Z.to_nat index) route (0, 0).

(** The index of the point that [_interpolate_location] returns. *)
Definition interpolate_index (route : list (Q * Q)) (progress : Q) : Z :=
  if Qle_bool progress 0 then 0%Z
  else if Qle_bool 1 progress then (Z.of_nat (length route) - 1)%Z
  else py_int (progress * inject_Z (Z.of_nat (length route) - 1)).

Definition _interpolate_location (route : list (Q * Q)) (progress : Q)
  : Location :=
  match route with
  | [] => mk_Location 0 0 "Route location"
  | first :: _ =>
      if Qle_bool progress 0 then
        mk_Location (fst first) (snd first) "Route location"
      else if Qle_bool 1 progress then
        mk_Location (fst (last_point route)) (snd (last_point route))
                    "Route location"
      else
        let index :=
          py_int (progress * inject_Z (Z.of_nat (length route) - 1)) in
        let coord := point_at route index in
        mk_Location (fst coord) (snd coord)
                    ("Mile marker " +:+ pretty (py_int (progress * 1000)))
  end.

Definition _generate_daily_logs (log_date : date) (drive_hours : Q)
    (is_first_day : bool) : list LogData :=
  let logs :=
    if is_first_day then
      [mk_LogData log_date "on_duty" (time_hm 6 0) 1
                  "Pre-trip inspection and trip planning"]
    else
      [mk_LogData log_date "off_duty" (time_hm 0 0) 10
                  "Required 10-hour off-duty period"] in
  let start_hour : Z := (if is_first_day then 7 else 10)%Z in
  if Qle_bool drive_hours 8 then
    logs ++ [mk_LogData log_date "driving" (time_hm start_hour 0)
                        drive_hours "Driving to destination"]
  else
    logs ++ [mk_LogData log_date "driving" (time_hm start_hour 0) 8
                        "Driving (first 8 hours)";
             mk_LogData log_date "off_duty" (time_hm (start_hour + 8) 0)
                        (1 # 2) "Mandatory 30-minute break";
             mk_LogData log_date "driving" (time_hm (start_hour + 8) 30)
                        (drive_hours - 8) "Driving (after break)"].

(** The variables that the day loop of [generate_compliance_plan] updates. *)
Record loop_state : Type := mk_loop_state {
  st_rest_stops : list RestStopData;
  st_eld_logs : list LogData;
  remaining_drive_hours : Q;
  distance_covered : Q
}.

Section Plan.
Variable trip : Trip.
Variable current_date : date.

Let total_hours : Q := estimated_drive_time_hours trip.

(** [daily_drive_hours] of iteration [day]. *)
Definition daily_drive_hours (day : Z) (remaining : Q) : Q :=
  if (day =? 0)%Z then
    Qmin (Qmin remaining MAX_DRIVING_HOURS_DAILY)
         (Qmax 0 (MAX_CYCLE_HOURS - current_cycle_used_hours trip))
  else
    Qmin remaining MAX_DRIVING_HOURS_DAILY.

(** One iteration of [for day in range(days_required)]. *)
Definition plan_day (day : Z) (st : loop_state) : py loop_state :=
  let day_date := (current_date + day)%Z in
  let daily := daily_drive_hours day (remaining_drive_hours st) in
  let day_logs := _generate_daily_logs day_date daily (day =? 0)%Z in
  let eld_logs := st_eld_logs st ++ day_logs in
  let covered := distance_covered st in
  do stops1 <-
    (if Qltb 8 daily then
       do share <- py_div 8 total_hours ;
       let distance_for_break :=
         covered + share * total_distance_miles trip in
       do progress <- py_div distance_for_break (total_distance_miles trip) ;
       Ret (st_rest_stops st ++
            [mk_RestStopData "break"
               (_interpolate_location (route_coordinates trip) progress)
               (combine day_date (time_hm 12 0))
               (1 # 2) distance_for_break true
               "30-minute break required after 8 hours driving"])
     else Ret (st_rest_stops st)) ;
  do stops2 <-
    (if Qltb 0 covered && Qltb (py_mod covered 1000) 200 then
       do progress <- py_div covered (total_distance_miles trip) ;
       Ret (stops1 ++
            [mk_RestStopData "fuel"
               (_interpolate_location (route_coordinates trip) progress)
               (combine day_date (time_hm 18 0))
               (1 # 2) covered false
               "Fuel stop (1000+ miles)"])
     else Ret stops1) ;
  let remaining := remaining_drive_hours st - daily in
  do share <- py_div daily total_hours ;
  let covered' := covered + share * total_distance_miles trip in
  do stops3 <-
    (if Qltb 0 remaining then
       do progress <- py_div covered' (total_distance_miles trip) ;
       Ret (stops2 ++
            [mk_RestStopData "rest"
               (_interpolate_location (route_coordinates trip) progress)
               (combine day_date (time_hm 22 0))
               10 covered' true
               ("Mandatory 10-hour rest before day "
                  +:+ pretty (day + 2)%Z)])
     else Ret stops2) ;
  Ret (mk_loop_state stops3 eld_logs remaining covered').

(** [count] iterations of the loop, the next one having index [day]. *)
Fixpoint plan_days (count : nat) (day : Z) (st : loop_state)
  : py loop_state :=
  match count with
  | O => Ret st
  | S count' =>
      do st' <- plan_day day st ;
      plan_days count' (day + 1)%Z st'
  end.

Definition available_drive_hours : Q :=
  Qmin MAX_DRIVING_HOURS_DAILY
       (MAX_CYCLE_HOURS - current_cycle_used_hours trip).

Definition generate_compliance_plan : py CompliancePlan :=
  let pickup_dropoff_hours : Q := 2 in
  let total_on_duty := total_hours + pickup_dropoff_hours in
  do ratio <- py_div total_hours available_drive_hours ;
  let days := math_ceil ratio in
  do final <- plan_days (Z.to_nat days) 0%Z
             (mk_loop_state [] [] total_hours 0) ;
  Ret (mk_CompliancePlan
         (st_rest_stops final)
         (st_eld_logs final)
         days
         (mk_ComplianceSummary
            total_hours total_on_duty days
            (current_cycle_used_hours trip + total_on_duty))).

End Plan.

End ELDComplianceService.

(** ** JSON documents

    What [json.loads] yields, and the Python operations the route service
    applies to it.  [None] stands for "raises": every use sits inside a
    [try] whose handler catches [Exception]. *)

#[warnings="-register-all"]
Inductive json : Type :=
| JNull
| JBool (b : bool)
| JNum (q : Q)
| JStr (s : string)
| JList (items : list json)
| JDict (entries : list (string * json)).

(** [string.index] from position 0 finds the first occurrence, if any. *)
Definition is_substring (needle hay : string) : bool :=
  match String.index 0 needle hay with
  | Some _ => true
  | None => false
  end.

Fixpoint chars (s : string) : list json :=
  match s with
  | EmptyString => []
  | String c rest => JStr (String c EmptyString) :: chars rest
  end.

Fixpoint dict_get (key : string) (entries : list (string * json))
  : option json :=
  match entries with
  | [] => None
  | (k, v) :: rest => if String.eqb k key then Some v else dict_get key rest
  end.

(** [j[key]] for a string key. *)
Definition subscript_key (j : json) (key : string) : option json :=
  match j with
  | JDict entries => dict_get key entries
  | _ => None
  end.

(** [j[i]] for a non-negative integer [i]. *)
Definition subscript_index (j : json) (i : nat) : option json :=
  match j with
  | JList items => items !! i
  | JStr s => chars s !! i
  | _ => None
  end.

(** The items that [for x in j] visits. *)
Definition py_iter (j : json) : option (list json) :=
  match j with
  | JList items => Some items
  | JStr s => Some (chars s)
  | JDict entries => Some (map (fun kv => JStr (fst kv)) entries)
  | _ => None
  end.

Definition is_text (key : string) (j : json) : bool :=
  match j with
  | JStr s => String.eqb s key
  | _ => false
  end.

(** [key in j] for a string [key]. *)
Definition py_contains (key : string) (j : json) : option bool :=
  match j with
  | JDict entries =>
      Some (match dict_get key entries with Some _ => true | None => false end)
  | JList items => Some (existsb (is_text key) items)
  | JStr s => Some (is_substring key s)
  | _ => None
  end.

(** The operand of [j * 0.000621371]: numbers, and booleans as 0 and 1. *)
Definition as_number (j : json) : option Q :=
  match j with
  | JNum q => Some q
  | JBool b => Some (if b then 1 else 0)
  | _ => None
  end.

(** ** services.RouteCalculatorService *)

Module RouteCalculatorService.

(** A location dictionary [{'lat': ..., 'lng': ...}]. *)
Record Coordinate : Type := mk_Coordinate {
  lat : Q;
  lng : Q
}.

(** An entry of ['instructions'].  The source renders each as text showing
    the miles to one decimal place; the embedding keeps the parts. *)
Inductive Instruction : Type :=
| StepInstruction (instruction : json) (distance_miles : Q)
| DriveTo (distance_miles : Q) (destination : string).

Record RouteData : Type := mk_RouteData {
  coordinates : list (json * json);
  distance_miles : json;
  duration_hours : json;
  instructions : list Instruction
}.

(** What the call [directions(...)] did, and what [loads] makes of the
    value it returned. *)
Inductive directions_outcome : Type :=
| DirectionsRaised
| DirectionsReturned (truthy : bool) (loaded : option json).

Definition _parse_step (step : json) : option (list Instruction) :=
  has_instruction ← py_contains "instruction" step;
  if has_instruction : bool then
    distance ← subscript_key step "distance";
    meters ← as_number distance;
    instruction ← subscript_key step "instruction";
    Some [StepInstruction instruction (meters * (621371 # 1000000000))]
  else Some [].

Fixpoint _parse_steps (steps : list json) : option (list Instruction) :=
  match steps with
  | [] => Some []
  | step :: rest =>
      parsed ← _parse_step step;
      others ← _parse_steps rest;
      Some (parsed ++ others)
  end.

Definition _parse_instructions (steps : json) : option (list Instruction) :=
  items ← py_iter steps;
  _parse_steps items.

(** [[coord[1], coord[0]]]. *)
Definition swap_coord (coord : json) : option (json * json) :=
  c1 ← subscript_index coord 1;
  c0 ← subscript_index coord 0;
  Some (c1, c0).

Fixpoint swap_coords (coords : list json) : option (list (json * json)) :=
  match coords with
  | [] => Some []
  | coord :: rest =>
      pair ← swap_coord coord;
      others ← swap_coords rest;
      Some (pair :: others)
  end.

(** The body of the [try] block; [None] when it raises or when the
    response is falsy, the two ways of reaching the fallback. *)
Definition primary_route (outcome : directions_outcome) : option RouteData :=
  match outcome with
  | DirectionsRaised => None
  | DirectionsReturned false _ => None
  | DirectionsReturned true loaded =>
      data ← loaded;
      features ← subscript_key data "features";
      route ← subscript_index features 0;
      properties ← subscript_key route "properties";
      geometry ← subscript_key route "geometry";
      coords ← subscript_key geometry "coordinates";
      items ← py_iter coords;
      route_coordinates ← swap_coords items;
      segments ← subscript_key properties "segments";
      segment ← subscript_index segments 0;
      distance ← subscript_key segment "distance";
      duration ← subscript_key segment "duration";
      steps ← subscript_key segment "steps";
      parsed ← _parse_instructions steps;
      Some (mk_RouteData route_coordinates distance duration parsed)
  end.

Section Route.
(** [geodesic(a, b).miles] of the geopy library, on (lat, lng) pairs. *)
Variable geodesic_miles : Q * Q -> Q * Q -> Q.

Definition _calculate_fallback_route (current pickup dropoff : Coordinate)
  : RouteData :=
  let current_to_pickup :=
    geodesic_miles (lat current, lng current) (lat pickup, lng pickup) in
  let pickup_to_dropoff :=
    geodesic_miles (lat pickup, lng pickup) (lat dropoff, lng dropoff) in
  let total_distance := current_to_pickup + pickup_to_dropoff in
  let estimated_hours := total_distance / 55 in
  mk_RouteData
    [(JNum (lat current), JNum (lng current));
     (JNum (lat pickup), JNum (lng pickup));
     (JNum (lat dropoff), JNum (lng dropoff))]
    (JNum total_distance)
    (JNum estimated_hours)
    [DriveTo current_to_pickup "pickup location";
     DriveTo pickup_to_dropoff "dropoff location"].

Definition calculate_route (outcome : directions_outcome)
    (current_location pickup_location dropoff_location : Coordinate)
  : RouteData :=
  match primary_route outcome with
  | Some route => route
  | None =>
      _calculate_fallback_route
        current_location pickup_location dropoff_location
  end.

End Route.

End RouteCalculatorService.

(** ** models.ELDLog *)

Module ELDLog.

(** A row of the log table.  [pk] is [None] until the row is stored.  The
    JSON [location] and the two timestamps, which nothing here reads, are
    left out. *)
Record row : Type := mk_row {
  pk : option Z;
  trip : option Z;
  driver : Z;
  log_date : date;
  duty_status : string;
  start_time : time;
  end_time : option time;
  duration_hours : Q;
  remarks : string
}.

(** [ELDLog.objects]: the stored rows, oldest first. *)
Definition table : Type := list row.

Definition pk_is (key : option Z) (r : row) : bool :=
  match key, pk r with
  | Some a, Some b => (a =? b)%Z
  | _, _ => false
  end.

(** [Sum('duration_hours')] over the rows that [keep] selects, with the
    [or 0] that replaces an empty aggregate. *)
Fixpoint sum_duration (keep : row -> bool) (objects : table) : Q :=
  match objects with
  | [] => 0
  | r :: rest =>
      if keep r then duration_hours r + sum_duration keep rest
      else sum_duration keep rest
  end.

Definition same_day_driving (self : row) (r : row) : bool :=
  (driver r =? driver self)%Z && (log_date r =? log_date self)%Z
  && String.eqb (duty_status r) "driving".

Definition clean (objects : table) (self : row) : py unit :=
  if Qle_bool (duration_hours self) 0 then
    Raise (ValidationError "Duration must be positive")
  else if String.eqb (duty_status self) "driving" then
    let daily_driving :=
      sum_duration
        (fun r => same_day_driving self r && negb (pk_is (pk self) r))
        objects in
    if Qltb 11 (daily_driving + duration_hours self) then
      Raise (ValidationError "Daily driving limit of 11 hours exceeded")
    else Ret tt
  else Ret tt.

(** Rounding to the nearest integer, ties to even: how [timedelta] turns a
    fractional number of microseconds into a whole one. *)
Definition round_half_even (x : Q) : Z :=
  let low := Qfloor x in
  let frac := x - inject_Z low in
  if Qltb frac (1 # 2) then low
  else if Qltb (1 # 2) frac then (low + 1)%Z
  else if Z.even low then low else (low + 1)%Z.

Definition microseconds_per_day : Z := 86400000000.

Definition time_to_microseconds (t : time) : Z :=
  (((hour t * 60 + minute t) * 60 + second t) * 1000000 + microsecond t)%Z.

Definition microseconds_to_time (us : Z) : time :=
  mk_time (us / 3600000000)%Z
          ((us / 60000000) mod 60)%Z
          ((us / 1000000) mod 60)%Z
          (us mod 1000000)%Z.

(** The [end_time] that [save] derives from [start_time] and
    [duration_hours], the end of the entry being on the calendar. *)
Definition derived_end_time (self : row) : time :=
  let total :=
    (time_to_microseconds (start_time self)
     + round_half_even (duration_hours self * 3600000000))%Z in
  if (total / microseconds_per_day =? 0)%Z then
    microseconds_to_time (total mod microseconds_per_day)
  else mk_time 23 59 59 0.

Definition with_end_time (self : row) (t : option time) : row :=
  mk_row (pk self) (trip self) (driver self) (log_date self)
         (duty_status self) (start_time self) t (duration_hours self)
         (remarks self).

Definition with_pk (self : row) (key : Z) : row :=
  mk_row (Some key) (trip self) (driver self) (log_date self)
         (duty_status self) (start_time self) (end_time self)
         (duration_hours self) (remarks self).

(** The key the database gives to the next inserted row. *)
Fixpoint next_pk (objects : table) : Z :=
  match objects with
  | [] => 1%Z
  | r :: rest =>
      match pk r with
      | Some k => Z.max (k + 1) (next_pk rest)
      | None => next_pk rest
      end
  end.

(** [super().save()]: an insert for a fresh row, an update otherwise. *)
Definition store (objects : table) (self : row) : table :=
  match pk self with
  | None => objects ++ [with_pk self (next_pk objects)]
  | Some _ =>
      if existsb (pk_is (pk self)) objects then
        map (fun r => if pk_is (pk self) r then self else r) objects
      else objects ++ [self]
  end.

Definition save (objects : table) (self : row) : py table :=
  let self' :=
    match end_time self with
    | None =>
        if Qeq_bool (duration_hours self) 0 then self
        else with_end_time self (Some (derived_end_time self))
    | Some _ => self
    end in
  do _ <- clean objects self' ;
  Ret (store objects self').

(** [ELDLog.objects.create(trip=..., driver=..., **log_data)]. *)
Definition create (objects : table) (trip_pk driver_pk : Z)
    (log_data : LogData) : py table :=
  match log_data with
  | mk_LogData day duty start hours text =>
      save objects
        (mk_row None (Some trip_pk) driver_pk day duty start None hours text)
  end.

(** The rows of the driver of [self] on the date of [self] that are on duty,
    driving or not. *)
Definition same_day_on_duty (self : row) (r : row) : bool :=
  (driver r =? driver self)%Z && (log_date r =? log_date self)%Z
  && (String.eqb (duty_status r) "driving"
      || String.eqb (duty_status r) "on_duty").

(** The property [is_violation] of a stored row. *)
Definition is_violation (objects : table) (self : row) : bool :=
  if String.eqb (duty_status self) "driving"
     && Qltb 11 (sum_duration (same_day_driving self) objects)
  then true
  else Qltb 14 (sum_duration (same_day_on_duty self) objects).

End ELDLog.

(** ** models.RestStop *)

Module RestStop.

(** Insertion in the order of [Meta.ordering = ['distance_from_start_miles']];
    a stop goes after the stored ones at the same distance. *)
Fixpoint insert_by_distance (stop : RestStopData)
    (sorted : list RestStopData) : list RestStopData :=
  match sorted with
  | [] => [stop]
  | head :: rest =>
      if Qltb (distance_from_start_miles stop)
              (distance_from_start_miles head)
      then stop :: head :: rest
      else head :: insert_by_distance stop rest
  end.

(** [trip.rest_stops.all()] over the stops created, in creation order, from
    [stops]: the rows in the model's default ordering. *)
Definition all (stops : list RestStopData) : list RestStopData :=
  fold_left (fun sorted stop => insert_by_distance stop sorted) stops [].

End RestStop.

(** ** views.TripViewSet *)

Module TripViewSet.

(** [Response({key: text}, status=status_code)]. *)
Record Response : Type := mk_Response {
  status_code : Z;
  data_key : string;
  data_text : string
}.

Definition HTTP_200_OK : Z := 200.
Definition HTTP_201_CREATED : Z := 201.
Definition HTTP_400_BAD_REQUEST : Z := 400.
Definition HTTP_403_FORBIDDEN : Z := 403.

Record Database : Type := mk_Database {
  trips : gmap Z Trip;
  logs : ELDLog.table
}.

(** [self.get_object()] for the trip addressed by [pk]. *)
Definition get_object (db : Database) (pk : Z) : py Trip :=
  match trips db !! pk with
  | Some trip => Ret trip
  | None => Raise Http404
  end.

(** [str(e)]. *)
Definition exn_str (e : exn) : string :=
  match e with
  | ZeroDivisionError => "float division by zero"
  | ValidationError message => "['" +:+ message +:+ "']"
  | Http404 => "No Trip matches the given query."
  | IndexError => "list index out of range"
  | KeyError key => "'" +:+ key +:+ "'"
  | TypeError message => message
  | ValueError message => message
  | OverflowError message => message
  end.

Definition set_started (trip : Trip) (now : datetime) : Trip :=
  mk_Trip (driver trip) "active" (total_distance_miles trip)
          (estimated_drive_time_hours trip) (current_cycle_used_hours trip)
          (route_coordinates trip) (Some now) (trip_end_time trip).

Definition set_ended (trip : Trip) (new_status : string) (now : datetime)
  : Trip :=
  mk_Trip (driver trip) new_status (total_distance_miles trip)
          (estimated_drive_time_hours trip) (current_cycle_used_hours trip)
          (route_coordinates trip) (trip_start_time trip) (Some now).

(** [trip.save()]. *)
Definition save_trip (db : Database) (pk : Z) (trip : Trip) : Database :=
  mk_Database (<[pk := trip]> (trips db)) (logs db).

(** Each action maps the database and the request to the new database and
    either a response or the exception that leaves the view. *)
Definition start_trip (now : datetime) (pk : Z) (db : Database)
  : Database * py Response :=
  match get_object db pk with
  | Raise e => (db, Raise e)
  | Ret trip =>
      (save_trip db pk (set_started trip now),
       Ret (mk_Response HTTP_200_OK "status" "Trip started successfully"))
  end.

Definition end_trip (now : datetime) (pk : Z) (db : Database)
  : Database * py Response :=
  match get_object db pk with
  | Raise e => (db, Raise e)
  | Ret trip =>
      if String.eqb (status trip) "cancelled" then
        (db, Ret (mk_Response HTTP_403_FORBIDDEN "status"
                              "Cannot complete a cancelled trip"))
      else
        (save_trip db pk (set_ended trip "completed" now),
         Ret (mk_Response HTTP_200_OK "status" "Trip started successfully"))
  end.

Definition cancel_trip (now : datetime) (pk : Z) (db : Database)
  : Database * py Response :=
  match get_object db pk with
  | Raise e => (db, Raise e)
  | Ret trip =>
      if String.eqb (status trip) "completed" then
        (db, Ret (mk_Response HTTP_403_FORBIDDEN "status"
                              "Cannot cancel trip"))
      else
        (save_trip db pk (set_ended trip "cancelled" now),
         Ret (mk_Response HTTP_200_OK "status" "Trip cancelled successfully"))
  end.

(** The fields that [ELDLogCreateSerializer] hands over once validated. *)
Record LogFields : Type := mk_LogFields {
  f_log_date : date;
  f_duty_status : string;
  f_start_time : time;
  f_end_time : option time;
  f_duration_hours : Q;
  f_remarks : string
}.

Section AddLog.
(** [serializer.is_valid()] together with [serializer.validated_data]:
    the field validation is the serializer framework's; [None] when the
    payload is rejected. *)
Variable validate : json -> option LogFields.

(** [serializer.save(trip=trip, driver=driver)]. *)
Definition serializer_save (objects : ELDLog.table) (pk : Z) (trip : Trip)
    (fields : LogFields) : py ELDLog.table :=
  ELDLog.save objects
    (ELDLog.mk_row None (Some pk) (driver trip)
       (f_log_date fields) (f_duty_status fields) (f_start_time fields)
       (f_end_time fields) (f_duration_hours fields) (f_remarks fields)).

(** The body of the [try] block of [add_log]. *)
Definition add_log_body (request_data : json) (pk : Z) (db : Database)
  : py Database :=
  do trip <- get_object db pk ;
  match validate request_data with
  | Some fields =>
      do objects <- serializer_save (logs db) pk trip fields ;
      Ret (mk_Database (trips db) objects)
  | None => Ret db
  end.

Definition add_log (request_data : json) (pk : Z) (db : Database)
  : Database * py Response :=
  match add_log_body request_data pk db with
  | Ret db' =>
      (db', Ret (mk_Response HTTP_201_CREATED "status"
                             "Log added successfully"))
  | Raise e =>
      (db, Ret (mk_Response HTTP_400_BAD_REQUEST "error" (exn_str e)))
  end.

End AddLog.

(** The loop of [create] that stores the log entries of a plan:
    [for log_data in compliance_plan['eld_logs']:
     ELDLog.objects.create(trip=trip, driver=driver, **log_data)]. *)
Fixpoint create_logs (objects : ELDLog.table) (trip_pk driver_pk : Z)
    (entries : list LogData) : py ELDLog.table :=
  match entries with
  | [] => Ret objects
  | log_data :: rest =>
      do objects' <- ELDLog.create objects trip_pk driver_pk log_data ;
      create_logs objects' trip_pk driver_pk rest
  end.

End TripViewSet.

(** ** models.Trip *)

(** The property [requires_multiple_days], on the nullable
    [estimated_drive_time_hours] and on [current_cycle_used_hours]: [None]
    and zero are the falsy values of the first test. *)
Definition requires_multiple_days_of (estimated : option Q) (used : Q)
  : bool :=
  match estimated with
  | None => false
  | Some hours =>
      if Qeq_bool hours 0 then false
      else Qltb (Qmin 11 (70 - used)) hours
  end.

Definition requires_multiple_days (trip : Trip) : bool :=
  requires_multiple_days_of (Some (estimated_drive_time_hours trip))
                            (current_cycle_used_hours trip).

(** ** Double-precision arithmetic

    A Python float is a binary64 number.  Each operation yields the exact
    result rounded to the nearest double, ties going to the even
    significand; [round] is that rounding on the rationals.  The doubles
    are the rationals of up to 53 significant bits whose last bit has an
    exponent of at least -1074.  The exponent is not bounded above:
    infinities and NaN have no counterpart. *)

Module Double.

(** [2 ** e]. *)
Definition pow2 (e : Z) : Q := 2 ^ e.

(** The exponent of the leading bit of [x > 0]. *)
Definition ilog2 (x : Q) : Z :=
  let k := (Z.log2 (Qnum x) - Z.log2 (Z.pos (Qden x)))%Z in
  if Qle_bool (pow2 k) x then k else (k - 1)%Z.

(** The exponent of the last bit of the double nearest to [x > 0]. *)
Definition exponent (x : Q) : Z := Z.max (ilog2 x - 52) (-1074).

Definition round_magnitude (x : Q) : Q :=
  let e := exponent x in
  inject_Z (ELDLog.round_half_even (x / pow2 e)) * pow2 e.

(** The double nearest to [x]. *)
Definition round (x : Q) : Q :=
  match Qnum x with
  | Z0 => 0
  | Zpos _ => round_magnitude x
  | Zneg _ => - round_magnitude (- x)
  end.

(** [x] is a double. *)
Definition representable (x : Q) : Prop := round x == x.

(** [float(k)] and the conversion of an integer operand. *)
Definition of_int (k : Z) : Q := round (inject_Z k).

(** [a + b], [a - b], [a * b] and [a / b] on floats. *)
Definition add (a b : Q) : Q := round (a + b).
Definition sub (a b : Q) : Q := round (a - b).
Definition mul (a b : Q) : Q := round (a * b).
Definition div (a b : Q) : py Q :=
  if Qeq_bool b 0 then Raise ZeroDivisionError else Ret (round (a / b)).

End Double.

(** ** The application with its machine arithmetic

    The modules above read the source's formulas over the rationals, on a
    calendar without end, with library calls that succeed.  [Machine] is
    the same code with what the interpreter adds: every float operation
    rounds, list subscripts and calendar arithmetic raise out of range,
    and the library calls outside a [try] can raise. *)

Module Machine.

(** [date.max.toordinal()], the ordinal of 9999-12-31; [date.min] has
    ordinal 1. *)
Definition date_max : Z := 3652059.

(** The largest number of days of a [timedelta]. *)
Definition timedelta_max_days : Z := 999999999.

Definition timedelta_days_message (days : Z) : string :=
  "days=" +:+ pretty days +:+ "; must have magnitude <= 999999999".

(** [d + timedelta(days=days)]. *)
Definition date_add_days (d : date) (days : Z) : py date :=
  if (timedelta_max_days <? Z.abs days)%Z then
    Raise (OverflowError (timedelta_days_message days))
  else if (1 <=? d + days)%Z && (d + days <=? date_max)%Z then
    Ret (d + days)%Z
  else Raise (OverflowError "date value out of range").

(** [items[i]] on a list: a negative index counts from the end. *)
Definition list_index {A : Type} (items : list A) (i : Z) : py A :=
  let n := Z.of_nat (length items) in
  let j := if (i <? 0)%Z then (i + n)%Z else i in
  if (j <? 0)%Z then Raise IndexError
  else
    match items !! Z.to_nat j with
    | Some item => Ret item
    | None => Raise IndexError
    end.

(** [j[key]] for a string key. *)
Definition py_subscript (j : json) (key : string) : py json :=
  match j with
  | JDict entries =>
      match dict_get key entries with
      | Some value => Ret value
      | None => Raise (KeyError key)
      end
  | JList _ => Raise (TypeError "list indices must be integers or slices")
  | JStr _ => Raise (TypeError "string indices must be integers")
  | _ => Raise (TypeError "object is not subscriptable")
  end.

Module ELDComplianceService.

(** The index of the point that [_interpolate_location] returns. *)
Definition interpolate_index (route : list (Q * Q)) (progress : Q) : Z :=
  if Qle_bool progress 0 then 0%Z
  else if Qle_bool 1 progress then (Z.of_nat (length route) - 1)%Z
  else
    py_int (Double.mul progress
              (Double.of_int (Z.of_nat (length route) - 1))).

Definition _interpolate_location (route : list (Q * Q)) (progress : Q)
  : py Location :=
  match route with
  | [] => Ret (mk_Location 0 0 "Route location")
  | first :: _ =>
      if Qle_bool progress 0 then
        Ret (mk_Location (fst first) (snd first) "Route location")
      else if Qle_bool 1 progress then
        do coord <- list_index route (-1) ;
        Ret (mk_Location (fst coord) (snd coord) "Route location")
      else
        let index :=
          py_int (Double.mul progress
                    (Double.of_int (Z.of_nat (length route) - 1))) in
        do coord <- list_index route index ;
        Ret (mk_Location (fst coord) (snd coord)
               ("Mile marker "
                  +:+ pretty (py_int (Double.mul progress 1000))))
  end.

Definition _generate_daily_logs (log_date : date) (drive_hours : Q)
    (is_first_day : bool) : list LogData :=
  let logs :=
    if is_first_day then
      [mk_LogData log_date "on_duty" (time_hm 6 0) 1
                  "Pre-trip inspection and trip planning"]
    else
      [mk_LogData log_date "off_duty" (time_hm 0 0) 10
                  "Required 10-hour off-duty period"] in
  let start_hour : Z := (if is_first_day then 7 else 10)%Z in
  if Qle_bool drive_hours 8 then
    logs ++ [mk_LogData log_date "driving" (time_hm start_hour 0)
                        drive_hours "Driving to destination"]
  else
    logs ++ [mk_LogData log_date "driving" (time_hm start_hour 0) 8
                        "Driving (first 8 hours)";
             mk_LogData log_date "off_duty" (time_hm (start_hour + 8) 0)
                        (1 # 2) "Mandatory 30-minute break";
             mk_LogData log_date "driving" (time_hm (start_hour + 8) 30)
                        (Double.sub drive_hours 8) "Driving (after break)"].

Section Plan.
Variable trip : Trip.
Variable current_date : date.

Let total_hours : Q := estimated_drive_time_hours trip.
Let total_miles : Q := total_distance_miles trip.

(** [MAX_CYCLE_HOURS - trip.current_cycle_used_hours]. *)
Definition cycle_hours_left : Q :=
  Double.sub 70 (current_cycle_used_hours trip).

Definition daily_drive_hours (day : Z) (remaining : Q) : Q :=
  if (day =? 0)%Z then
    Qmin (Qmin remaining 11) (Qmax 0 cycle_hours_left)
  else
    Qmin remaining 11.

(** One stop dictionary; the progress is divided before the location is
    looked up. *)
Definition rest_stop (kind : string) (at_time : datetime) (hours : Q)
    (miles : Q) (mandatory : bool) (reason : string) : py RestStopData :=
  do progress <- Double.div miles total_miles ;
  do place <- _interpolate_location (route_coordinates trip) progress ;
  Ret (mk_RestStopData kind place at_time hours miles mandatory reason).

(** One iteration of [for day in range(days_required)].  The remainder of
    a positive distance by 1000 is exact in floating point. *)
Definition plan_day (day : Z) (st : ELDComplianceService.loop_state)
  : py ELDComplianceService.loop_state :=
  do day_date <- date_add_days current_date day ;
  let daily :=
    daily_drive_hours day (ELDComplianceService.remaining_drive_hours st) in
  let day_logs := _generate_daily_logs day_date daily (day =? 0)%Z in
  let eld_logs := ELDComplianceService.st_eld_logs st ++ day_logs in
  let covered := ELDComplianceService.distance_covered st in
  do stops1 <-
    (if Qltb 8 daily then
       do share <- Double.div 8 total_hours ;
       let distance_for_break :=
         Double.add covered (Double.mul share total_miles) in
       do stop <-
         rest_stop "break" (combine day_date (time_hm 12 0)) (1 # 2)
           distance_for_break true
           "30-minute break required after 8 hours driving" ;
       Ret (ELDComplianceService.st_rest_stops st ++ [stop])
     else Ret (ELDComplianceService.st_rest_stops st)) ;
  do stops2 <-
    (if Qltb 0 covered && Qltb (py_mod covered 1000) 200 then
       do stop <-
         rest_stop "fuel" (combine day_date (time_hm 18 0)) (1 # 2)
           covered false "Fuel stop (1000+ miles)" ;
       Ret (stops1 ++ [stop])
     else Ret stops1) ;
  let remaining :=
    Double.sub (ELDComplianceService.remaining_drive_hours st) daily in
  do share <- Double.div daily total_hours ;
  let covered' := Double.add covered (Double.mul share total_miles) in
  do stops3 <-
    (if Qltb 0 remaining then
       do stop <-
         rest_stop "rest" (combine day_date (time_hm 22 0)) 10
           covered' true
           ("Mandatory 10-hour rest before day " +:+ pretty (day + 2)%Z) ;
       Ret (stops2 ++ [stop])
     else Ret stops2) ;
  Ret (ELDComplianceService.mk_loop_state stops3 eld_logs remaining covered').

Fixpoint plan_days (count : nat) (day : Z)
    (st : ELDComplianceService.loop_state)
  : py ELDComplianceService.loop_state :=
  match count with
  | O => Ret st
  | S count' =>
      do st' <- plan_day day st ;
      plan_days count' (day + 1)%Z st'
  end.

Definition available_drive_hours : Q := Qmin 11 cycle_hours_left.

Definition generate_compliance_plan : py CompliancePlan :=
  let pickup_dropoff_hours : Q := 2 in
  let total_on_duty := Double.add total_hours pickup_dropoff_hours in
  do ratio <- Double.div total_hours available_drive_hours ;
  let days := math_ceil ratio in
  do final <- plan_days (Z.to_nat days) 0%Z
             (ELDComplianceService.mk_loop_state [] [] total_hours 0) ;
  Ret (mk_CompliancePlan
         (ELDComplianceService.st_rest_stops final)
         (ELDComplianceService.st_eld_logs final)
         days
         (mk_ComplianceSummary
            total_hours total_on_duty days
            (Double.add (current_cycle_used_hours trip) total_on_duty))).

End Plan.

End ELDComplianceService.

Module RouteCalculatorService.

Section Route.
(** What [Client(key=self.api_key)] does: the constructor of the
    openrouteservice library raises when it gets no key. *)
Variable new_client : py unit.
(** [geodesic(a, b).miles] of the geopy library, on the (lat, lng) pairs
    as the dictionaries hold them; the library raises on a latitude
    outside [-90, 90] and on what is not a number. *)
Variable geodesic_miles : json * json -> json * json -> py Q.

Definition _calculate_fallback_route (current pickup dropoff : json)
  : py RouteCalculatorService.RouteData :=
  do current_lat <- py_subscript current "lat" ;
  do current_lng <- py_subscript current "lng" ;
  do pickup_lat <- py_subscript pickup "lat" ;
  do pickup_lng <- py_subscript pickup "lng" ;
  do current_to_pickup <-
    geodesic_miles (current_lat, current_lng) (pickup_lat, pickup_lng) ;
  do dropoff_lat <- py_subscript dropoff "lat" ;
  do dropoff_lng <- py_subscript dropoff "lng" ;
  do pickup_to_dropoff <-
    geodesic_miles (pickup_lat, pickup_lng) (dropoff_lat, dropoff_lng) ;
  let total_distance := Double.add current_to_pickup pickup_to_dropoff in
  do estimated_hours <- Double.div total_distance 55 ;
  Ret (RouteCalculatorService.mk_RouteData
         [(current_lat, current_lng);
          (pickup_lat, pickup_lng);
          (dropoff_lat, dropoff_lng)]
         (JNum total_distance)
         (JNum estimated_hours)
         [RouteCalculatorService.DriveTo current_to_pickup
            "pickup location";
          RouteCalculatorService.DriveTo pickup_to_dropoff
            "dropoff location"]).

(** The client and the three coordinate pairs are built before the [try];
    [outcome] is what the request inside it did. *)
Definition calculate_route
    (outcome : RouteCalculatorService.directions_outcome)
    (current_location pickup_location dropoff_location : json)
  : py RouteCalculatorService.RouteData :=
  do _ <- new_client ;
  do _ <- py_subscript current_location "lng" ;
  do _ <- py_subscript current_location "lat" ;
  do _ <- py_subscript pickup_location "lng" ;
  do _ <- py_subscript pickup_location "lat" ;
  do _ <- py_subscript dropoff_location "lng" ;
  do _ <- py_subscript dropoff_location "lat" ;
  match RouteCalculatorService.primary_route outcome with
  | Some route => Ret route
  | None =>
      _calculate_fallback_route
        current_location pickup_location dropoff_location
  end.

End Route.

End RouteCalculatorService.

Module ELDLog.

(** [timedelta(hours=hours)], in microseconds. *)
Definition timedelta_hours (hours : Q) : py Z :=
  let us := ELDLog.round_half_even (hours * 3600000000) in
  let days := (us / ELDLog.microseconds_per_day)%Z in
  if (timedelta_max_days <? Z.abs days)%Z then
    Raise (OverflowError (timedelta_days_message days))
  else Ret us.

(** [datetime.combine(d, t) + delta]: the date and the microsecond of the
    day. *)
Definition datetime_add (d : date) (t : time) (delta : Z) : py (date * Z) :=
  let total := (ELDLog.time_to_microseconds t + delta)%Z in
  let day := (d + total / ELDLog.microseconds_per_day)%Z in
  if (1 <=? day)%Z && (day <=? date_max)%Z then
    Ret (day, (total mod ELDLog.microseconds_per_day)%Z)
  else Raise (OverflowError "date value out of range").

(** The [end_time] that [save] derives, once the end of the entry has been
    found on the calendar. *)
Definition derived_end_time (self : ELDLog.row) : py time :=
  do delta <- timedelta_hours (ELDLog.duration_hours self) ;
  do ending <-
    datetime_add (ELDLog.log_date self) (ELDLog.start_time self) delta ;
  if (fst ending =? ELDLog.log_date self)%Z then
    Ret (ELDLog.microseconds_to_time (snd ending))
  else Ret (mk_time 23 59 59 0).

Definition save (objects : ELDLog.table) (self : ELDLog.row)
  : py ELDLog.table :=
  do self' <-
    match ELDLog.end_time self with
    | None =>
        if Qeq_bool (ELDLog.duration_hours self) 0 then Ret self
        else
          do ending <- derived_end_time self ;
          Ret (ELDLog.with_end_time self (Some ending))
    | Some _ => Ret self
    end ;
  do _ <- ELDLog.clean objects self' ;
  Ret (ELDLog.store objects self').

End ELDLog.

Module TripViewSet.

Section AddLog.
Variable validate : json -> option TripViewSet.LogFields.

(** [serializer.save(trip=trip, driver=driver)]. *)
Definition serializer_save (objects : ELDLog.table) (pk : Z) (trip : Trip)
    (fields : TripViewSet.LogFields) : py ELDLog.table :=
  Machine.ELDLog.save objects
    (ELDLog.mk_row None (Some pk) (driver trip)
       (TripViewSet.f_log_date fields) (TripViewSet.f_duty_status fields)
       (TripViewSet.f_start_time fields) (TripViewSet.f_end_time fields)
       (TripViewSet.f_duration_hours fields)
       (TripViewSet.f_remarks fields)).

(** The body of the [try] block of [add_log]. *)
Definition add_log_body (request_data : json) (pk : Z)
    (db : TripViewSet.Database) : py TripViewSet.Database :=
  do trip <- TripViewSet.get_object db pk ;
  match validate request_data with
  | Some fields =>
      do objects <- serializer_save (TripViewSet.logs db) pk trip fields ;
      Ret (TripViewSet.mk_Database (TripViewSet.trips db) objects)
  | None => Ret db
  end.

Definition add_log (request_data : json) (pk : Z)
    (db : TripViewSet.Database)
  : TripViewSet.Database * TripViewSet.Response :=
  match add_log_body request_data pk db with
  | Ret db' =>
      (db', TripViewSet.mk_Response TripViewSet.HTTP_201_CREATED "status"
              "Log added successfully")
  | Raise e =>
      (db, TripViewSet.mk_Response TripViewSet.HTTP_400_BAD_REQUEST "error"
             (TripViewSet.exn_str e))
  end.

End AddLog.

End TripViewSet.

End Machine.

(** ** Vocabulary of the properties *)

Definition is_driving (entry : LogData) : bool :=
  String.eqb (duty_status entry) "driving".

Definition is_on_duty (entry : LogData) : bool :=
  String.eqb (duty_status entry) "on_duty".

Definition on_date (day : date) (entry : LogData) : bool :=
  (log_date entry =? day)%Z.

(** The hours of the entries that [keep] selects. *)
Fixpoint sum_hours (keep : LogData -> bool) (entries : list LogData) : Q :=
  match entries with
  | [] => 0
  | entry :: rest =>
      if keep entry then duration_hours entry + sum_hours keep rest
      else sum_hours keep rest
  end.

(** Hours of Driving on one calendar day. *)
Definition driving_hours_on (day : date) (entries : list LogData) : Q :=
  sum_hours (fun entry => on_date day entry && is_driving entry) entries.

(** Hours of Driving and of On-Duty-Not-Driving on one calendar day. *)
Definition duty_hours_on (day : date) (entries : list LogData) : Q :=
  sum_hours
    (fun entry => on_date day entry && (is_driving entry || is_on_duty entry))
    entries.

(** The per-day Driving hours of the [count] days from [first], added up. *)
Fixpoint sum_over_days (count : nat) (first : date) (entries : list LogData)
  : Q :=
  match count with
  | O => 0
  | S count' =>
      driving_hours_on first entries
      + sum_over_days count' (first + 1)%Z entries
  end.

Definition ascending_by_distance (stops : list RestStopData) : Prop :=
  StronglySorted
    (fun a b => distance_from_start_miles a <= distance_from_start_miles b)
    stops.

(** A JSON value that is a number above zero. *)
Definition positive_number (j : json) : Prop :=
  match j with
  | JNum q => 0 < q
  | _ => False
  end.

(** The stops with [is_mandatory] set: the breaks and the rests. *)
Definition mandatory_stops (stops : list RestStopData) : list RestStopData :=
  List.filter is_mandatory stops.

(** The mandatory stops of [stops] ascend and none lies beyond [bound]. *)
Definition mandatory_within (bound : Q) (stops : list RestStopData) : Prop :=
  ascending_by_distance (mandatory_stops stops)
  /\ Forall (fun stop => distance_from_start_miles stop <= bound)
            (mandatory_stops stops).

(** The executable counterpart of [ascending_by_distance]: each stop is
    compared with its successor. *)
Fixpoint is_ascending (stops : list RestStopData) : bool :=
  match stops with
  | [] => true
  | stop :: rest =>
      match rest with
      | [] => true
      | next :: _ =>
          Qle_bool (distance_from_start_miles stop)
                   (distance_from_start_miles next)
          && is_ascending rest
      end
  end.

(** Hours of Driving stored for one driver on one date. *)
Definition driving_total (driver_pk : Z) (day : date)
    (objects : ELDLog.table) : Q :=
  ELDLog.sum_duration
    (fun r => (ELDLog.driver r =? driver_pk)%Z
              && (ELDLog.log_date r =? day)%Z
              && String.eqb (ELDLog.duty_status r) "driving")
    objects.

(** No driver has more than eleven hours of Driving stored on any date. *)
Definition within_driving_limit (objects : ELDLog.table) : Prop :=
  forall (driver_pk : Z) (day : date),
    driving_total driver_pk day objects <= 11.

(** A wall-clock time whose fields are in range. *)
Definition valid_time (t : time) : Prop :=
  (0 <= hour t < 24 /\ 0 <= minute t < 60 /\ 0 <= second t < 60
   /\ 0 <= microsecond t < 1000000)%Z.

(** The entry [earlier] is over when [later] begins: it lies on an earlier
    date, or on the same date and its start plus its duration is not past
    the start of [later]. *)
Definition over_before (earlier later : LogData) : Prop :=
  (log_date earlier < log_date later)%Z
  \/ (log_date earlier = log_date later
      /\ inject_Z (ELDLog.time_to_microseconds (start_time earlier))
         + duration_hours earlier * 3600000000
         <= inject_Z (ELDLog.time_to_microseconds (start_time later))).

(** A provider document of the expected shape: one feature whose geometry
    holds [points] as [[lng, lat, elevation]] and whose first segment
    carries [distance], [duration] and [steps]. *)
Definition geojson_point (point : Q * Q * Q) : json :=
  match point with
  | (lng_deg, lat_deg, elevation) =>
      JList [JNum lng_deg; JNum lat_deg; JNum elevation]
  end.

Definition geojson_response (points : list (Q * Q * Q))
    (distance duration : json) (steps : list json) : json :=
  JDict
    [("features",
      JList
        [JDict
           [("properties",
             JDict
               [("segments",
                 JList
                   [JDict [("distance", distance); ("duration", duration);
                           ("steps", JList steps)]])]);
            ("geometry",
             JDict [("coordinates", JList (map geojson_point points))])]])].

Module Schedule.
Import ELDComplianceService.

Section Days.
Variable trip : Trip.
Variable current_date : date.

(** The hours still to drive after [count] iterations from [day]. *)
Fixpoint remaining_after (count : nat) (day : Z) (remaining : Q) : Q :=
  match count with
  | O => remaining
  | S count' =>
      remaining_after count' (day + 1)%Z
        (remaining - daily_drive_hours trip day remaining)
  end.

(** The log entries that [count] iterations from [day] append. *)
Fixpoint logs_of_days (count : nat) (day : Z) (remaining : Q)
  : list LogData :=
  match count with
  | O => []
  | S count' =>
      let daily := daily_drive_hours trip day remaining in
      _generate_daily_logs (current_date + day)%Z daily (day =? 0)%Z
      ++ logs_of_days count' (day + 1)%Z (remaining - daily)
  end.
End Days.
End Schedule.

(** An entry whose end [save] finds on the calendar: it starts at a valid
    time, lasts at most a day in either direction, and its date is neither
    the first nor the last day of the calendar. *)
Definition within_calendar (day : date) (start : time) (hours : Q) : Prop :=
  valid_time start /\ - (24) <= hours /\ hours <= 24
  /\ (2 <= day <= 3652058)%Z.

(** A row for which [save] has no end to compute, or computes one on the
    calendar. *)
Definition end_on_calendar (r : ELDLog.row) : Prop :=
  ELDLog.end_time r <> None
  \/ within_calendar (ELDLog.log_date r) (ELDLog.start_time r)
       (ELDLog.duration_hours r).

(** ** Concrete inputs *)

Module Scenario.

Definition three_points : list (Q * Q) := [(40, -75); (41, -80); (42, -88)].

(** Sixty-five cycle hours used, twenty hours to drive. *)
Definition scenario_b : Trip :=
  mk_Trip 1 "planned" 1100 20 65 three_points None None.

(** The cycle is used up: seventy hours used, five to drive. *)
Definition scenario_e : Trip :=
  mk_Trip 1 "planned" 275 5 70 three_points None None.

(** Two full driving days over two thousand miles. *)
Definition two_day_trip : Trip :=
  mk_Trip 1 "planned" 2000 22 0 three_points None None.

Definition today : date := 739000%Z.

Definition here : RouteCalculatorService.Coordinate :=
  RouteCalculatorService.mk_Coordinate 40 (-75).

(** What a routing provider answers when the three waypoints coincide: a
    route of no length with a single point. *)
Definition standstill_response : json :=
  JDict
    [("features",
      JList
        [JDict
           [("properties",
             JDict
               [("segments",
                 JList
                   [JDict [("distance", JNum 0); ("duration", JNum 0);
                           ("steps", JList [])]])]);
            ("geometry",
             JDict [("coordinates", JList [JList [JNum (-75); JNum 40]])])]])].

Definition completed_trip : Trip :=
  mk_Trip 1 "completed" 1100 20 65 three_points
          (Some (738990%Z, time_hm 6 0)) (Some (738994%Z, time_hm 17 30)).

Definition one_trip : TripViewSet.Database :=
  TripViewSet.mk_Database {[ 7%Z := completed_trip ]} [].

Definition now : datetime := (today, time_hm 9 15).

(** A validator that asks for a numeric [duration_hours] and a textual
    [duty_status], and dates the entry today at eight. *)
Definition sample_validate (request_data : json)
  : option TripViewSet.LogFields :=
  duration ← subscript_key request_data "duration_hours";
  hours ← as_number duration;
  duty ← subscript_key request_data "duty_status";
  match duty with
  | JStr text =>
      Some (TripViewSet.mk_LogFields today text (time_hm 8 0) None hours "")
  | _ => None
  end.

(** A payload without [duration_hours]. *)
Definition incomplete_payload : json :=
  JDict [("duty_status", JStr "driving")].

(** Nine hours to drive over no distance at all. *)
Definition standstill_trip : Trip :=
  mk_Trip 1 "planned" 0 9 0 three_points None None.

(** A driver's log of one day: ten hours of Driving and six on duty. *)
Definition long_day : ELDLog.table :=
  [ELDLog.mk_row (Some 1%Z) (Some 7%Z) 1 today "driving" (time_hm 6 0)
     (Some (time_hm 16 0)) 10 "";
   ELDLog.mk_row (Some 2%Z) (Some 7%Z) 1 today "on_duty" (time_hm 16 0)
     (Some (time_hm 22 0)) 6 ""].

(** One more hour on duty at ten in the evening, without an end time. *)
Definition late_hour : ELDLog.row :=
  ELDLog.mk_row None (Some 7%Z) 1 today "on_duty" (time_hm 22 0) None 1
                "Unloading".

(** Half an hour of Driving at noon, without an end time. *)
Definition noon_drive : ELDLog.row :=
  ELDLog.mk_row None (Some 7%Z) 1 today "driving" (time_hm 12 0) None
                (1 # 2) "Yard move".

(** A payload with the two fields that [sample_validate] asks for. *)
Definition complete_payload : json :=
  JDict [("duty_status", JStr "on_duty"); ("duration_hours", JNum 1)].

(** Two provider steps: the first lacks an instruction and is passed over,
    the second covers a thousand metres. *)
Definition two_steps : list json :=
  [JDict [("distance", JNum 250)];
   JDict [("instruction", JStr "Turn left"); ("distance", JNum 1000)]].

(** A step that has an instruction and no distance. *)
Definition broken_step : json := JDict [("instruction", JStr "Turn left")].

(** 98.1 hours to drive with 59.1 hours of the cycle used, as the
    interpreter reads the two decimals. *)
Definition long_haul : Trip :=
  mk_Trip 1 "planned" 5000 (Double.round (981 # 10))
          (Double.round (591 # 10)) three_points None None.

Definition six_points : list (Q * Q) :=
  [(40, -75); (41, -80); (42, -88); (43, -95); (44, -101); (45, -110)].

(** The location dictionary of [here]. *)
Definition here_dict : json :=
  JDict [("lat", JNum 40); ("lng", JNum (-75))].

(** What the client constructor does when the settings hold no key. *)
Definition no_key : py unit :=
  Raise (ValueError "No API key was specified.").

(** A place that no map has: its latitude is beyond the pole. *)
Definition off_the_map : json :=
  JDict [("lat", JNum 95); ("lng", JNum 0)].

(** A stand-in for geopy that refuses such latitudes and puts every other
    pair of points 100 miles apart, a point being at no distance from
    itself. *)
Definition on_the_map (point : json * json) : bool :=
  match fst point with
  | JNum degrees => Qle_bool (-90) degrees && Qle_bool degrees 90
  | _ => false
  end.

Definition same_number (a b : json) : bool :=
  match a, b with
  | JNum x, JNum y => Qeq_bool x y
  | _, _ => false
  end.

Definition sample_geodesic (a b : json * json) : py Q :=
  if on_the_map a && on_the_map b then
    if same_number (fst a) (fst b) && same_number (snd a) (snd b)
    then Ret 0 else Ret 100
  else Raise (ValueError "Latitude must be in the [-90; 90] range.").

(** A hundred million hours on duty, without an end time. *)
Definition endless_shift : ELDLog.row :=
  ELDLog.mk_row None (Some 7%Z) 1 today "on_duty" (time_hm 8 0) None
                100000000 "".

(** The same entry as a payload for [sample_validate]. *)
Definition endless_payload : json :=
  JDict [("duty_status", JStr "on_duty");
         ("duration_hours", JNum 100000000)].

(** A thousand miles at 55 miles an hour, the hours being the float
    quotient, with 65 hours of the cycle used. *)
Definition thousand_miles : Trip :=
  mk_Trip 1 "planned" 1000 (Double.round (1000 / 55)) 65 three_points
          None None.

End Scenario.

(** * Properties *)

Section Arithmetic.

Lemma Qltb_lt (x y : Q) : Qltb x y = true <-> x < y.
Proof.
  unfold Qltb. rewrite negb_true_iff.
  split; intros H.
  - apply Qnot_le_lt. intros Hle.
    apply Qle_bool_iff in Hle. congruence.
  - destruct (Qle_bool y x) eqn:E; [|reflexivity].
    apply Qle_bool_iff in E. lra.
Qed.

Lemma Qltb_ge (x y : Q) : Qltb x y = false <-> y <= x.
Proof.
  unfold Qltb. rewrite negb_false_iff. apply Qle_bool_iff.
Qed.

Lemma Qle_bool_gt (x y : Q) : Qle_bool x y = false <-> y < x.
Proof.
  rewrite <- Qltb_lt. unfold Qltb.
  destruct (Qle_bool x y); simpl; split; congruence.
Qed.

Lemma py_div_ok (a b : Q) : ~ b == 0 -> py_div a b = Ret (a / b).
Proof.
  intros Hb. unfold py_div.
  destruct (Qeq_bool b 0) eqn:E; [|reflexivity].
  apply Qeq_bool_iff in E. contradiction.
Qed.

Lemma py_div_zero (a b : Q) : b == 0 -> py_div a b = Raise ZeroDivisionError.
Proof.
  intros Hb. unfold py_div.
  apply Qeq_bool_iff in Hb. now rewrite Hb.
Qed.

Lemma py_bind_inv {A B : Type} (m : py A) (k : A -> py B) (b : B) :
  py_bind m k = Ret b -> exists a, m = Ret a /\ k a = Ret b.
Proof.
  destruct m as [a|e]; simpl; [|discriminate].
  intros H. now exists a.
Qed.

Lemma py_div_inv (a b q : Q) : py_div a b = Ret q -> q = a / b.
Proof.
  unfold py_div. destruct (Qeq_bool b 0); [discriminate|].
  intros H. now injection H.
Qed.

(** On a value that is not negative, [int] is the floor. *)
Lemma py_int_floor (x : Q) : 0 <= x -> py_int x = Qfloor x.
Proof.
  destruct x as [n d]. unfold Qle, py_int, Qfloor. simpl.
  intros H. apply Z.quot_div_nonneg; lia.
Qed.

End Arithmetic.

(** ** Double-precision rounding *)

Section Nearest.

Lemma round_half_even_bounds (x : Q) :
  (Qfloor x <= ELDLog.round_half_even x <= Qfloor x + 1)%Z.
Proof.
  unfold ELDLog.round_half_even.
  destruct (Qltb _ _); [lia|].
  destruct (Qltb _ _); [lia|].
  destruct (Z.even _); lia.
Qed.

Lemma round_half_even_Z (k : Z) : ELDLog.round_half_even (inject_Z k) = k.
Proof.
  unfold ELDLog.round_half_even. rewrite Qfloor_Z.
  assert (Qltb (inject_Z k - inject_Z k) (1 # 2) = true) as ->
    by (apply Qltb_lt; lra).
  reflexivity.
Qed.

Lemma round_half_even_comp (x y : Q) :
  x == y -> ELDLog.round_half_even x = ELDLog.round_half_even y.
Proof.
  intros Heq. unfold ELDLog.round_half_even.
  rewrite (Qfloor_comp _ _ Heq).
  set (low := Qfloor y).
  assert (Qltb (x - inject_Z low) (1 # 2)
          = Qltb (y - inject_Z low) (1 # 2)) as ->.
  { destruct (Qltb (y - inject_Z low) (1 # 2)) eqn:E.
    - apply Qltb_lt in E. apply Qltb_lt. lra.
    - apply Qltb_ge in E. apply Qltb_ge. lra. }
  assert (Qltb (1 # 2) (x - inject_Z low)
          = Qltb (1 # 2) (y - inject_Z low)) as ->.
  { destruct (Qltb (1 # 2) (y - inject_Z low)) eqn:E.
    - apply Qltb_lt in E. apply Qltb_lt. lra.
    - apply Qltb_ge in E. apply Qltb_ge. lra. }
  reflexivity.
Qed.

Lemma round_half_even_le (x y : Q) :
  x <= y -> (ELDLog.round_half_even x <= ELDLog.round_half_even y)%Z.
Proof.
  intros Hle.
  pose proof (Qfloor_resp_le _ _ Hle) as Hfloor.
  pose proof (round_half_even_bounds x) as Hx.
  pose proof (round_half_even_bounds y) as Hy.
  destruct (Z.eq_dec (Qfloor x) (Qfloor y)) as [Hsame|Hother]; [|lia].
  clear Hx Hy. unfold ELDLog.round_half_even. rewrite Hsame.
  set (low := Qfloor y).
  destruct (Qltb (x - inject_Z low) (1 # 2)) eqn:Hx1.
  { destruct (Qltb (y - inject_Z low) (1 # 2)); [lia|].
    destruct (Qltb (1 # 2) (y - inject_Z low)); [lia|].
    destruct (Z.even low); lia. }
  apply Qltb_ge in Hx1.
  destruct (Qltb (y - inject_Z low) (1 # 2)) eqn:Hy1;
    [apply Qltb_lt in Hy1; lra|].
  destruct (Qltb (1 # 2) (x - inject_Z low)) eqn:Hx2.
  { apply Qltb_lt in Hx2.
    assert (Qltb (1 # 2) (y - inject_Z low) = true) as ->
      by (apply Qltb_lt; lra).
    lia. }
  destruct (Qltb (1 # 2) (y - inject_Z low)); [destruct (Z.even low); lia|].
  lia.
Qed.

End Nearest.

Section Powers.
Import Double.

Lemma pow2_pos (e : Z) : 0 < pow2 e.
Proof. apply Qpower_0_lt. reflexivity. Qed.

Lemma pow2_add (a b : Z) : pow2 (a + b) == pow2 a * pow2 b.
Proof. apply Qpower_plus. discriminate. Qed.

Lemma pow2_le (a b : Z) : (a <= b)%Z -> pow2 a <= pow2 b.
Proof. intros H. apply Qpower_le_compat_l; [exact H|discriminate]. Qed.

Lemma pow2_lt (a b : Z) : (a < b)%Z -> pow2 a < pow2 b.
Proof. intros H. apply Qpower_lt_compat_l; [exact H|reflexivity]. Qed.

Lemma pow2_Z (n : Z) : (0 <= n)%Z -> pow2 n == inject_Z (2 ^ n).
Proof. intros H. unfold pow2. now rewrite Zpower_Qpower. Qed.

(** Division by a power of two is multiplication by the opposite power. *)
Lemma div_pow2 (x : Q) (e : Z) : x / pow2 e == x * pow2 (- e).
Proof.
  unfold pow2. rewrite Qpower_opp. reflexivity.
Qed.

Lemma scale_le (x y : Q) (e : Z) : x <= y -> x / pow2 e <= y / pow2 e.
Proof.
  intros H. rewrite !div_pow2.
  apply Qmult_le_compat_r; [exact H|apply Qlt_le_weak, pow2_pos].
Qed.

Lemma log2_bounds (n : Z) :
  (0 < n)%Z ->
  pow2 (Z.log2 n) <= inject_Z n /\ inject_Z n < pow2 (Z.log2 n + 1).
Proof.
  intros Hn.
  pose proof (Z.log2_nonneg n) as Hlog.
  destruct (Z.log2_spec n Hn) as [Hlow Hhigh].
  rewrite !pow2_Z by lia.
  rewrite <- Zle_Qle, <- Zlt_Qlt.
  split; [exact Hlow|]. exact Hhigh.
Qed.

Lemma ilog2_spec (x : Q) :
  0 < x -> pow2 (ilog2 x) <= x /\ x < pow2 (ilog2 x + 1).
Proof.
  intros Hx.
  destruct x as [n d]. unfold ilog2. cbn [Qnum Qden].
  assert (0 < n)%Z as Hn.
  { unfold Qlt in Hx. simpl in Hx. lia. }
  destruct (log2_bounds n Hn) as [Hn1 Hn2].
  destruct (log2_bounds (Z.pos d) eq_refl) as [Hd1 Hd2].
  set (a := Z.log2 n) in *. set (b := Z.log2 (Z.pos d)) in *.
  assert (n # d == inject_Z n / inject_Z (Z.pos d)) as Hfrac
    by (rewrite Qmake_Qdiv; reflexivity).
  assert (0 < inject_Z (Z.pos d)) as Hd by reflexivity.
  destruct (Qle_bool (pow2 (a - b)) (n # d)) eqn:Htest.
  - apply Qle_bool_iff in Htest. split; [exact Htest|].
    rewrite Hfrac. apply Qlt_shift_div_r; [exact Hd|].
    eapply Qlt_le_trans; [exact Hn2|].
    replace (a + 1)%Z with ((a - b + 1) + b)%Z by lia.
    rewrite pow2_add.
    apply Qmult_le_l; [apply pow2_pos|exact Hd1].
  - apply Qle_bool_gt in Htest.
    replace (a - b - 1 + 1)%Z with (a - b)%Z by lia.
    split; [|exact Htest].
    rewrite Hfrac. apply Qle_shift_div_l; [exact Hd|].
    eapply Qle_trans; [|exact Hn1].
    replace a with ((a - b - 1) + (b + 1))%Z at 2 by lia.
    rewrite pow2_add.
    apply Qmult_le_l; [apply pow2_pos|apply Qlt_le_weak, Hd2].
Qed.

(** The leading exponent is determined by the binade. *)
Lemma ilog2_unique (x : Q) (k : Z) :
  pow2 k <= x -> x < pow2 (k + 1) -> ilog2 x = k.
Proof.
  intros Hlow Hhigh.
  assert (0 < x) as Hx by (pose proof (pow2_pos k); lra).
  destruct (ilog2_spec x Hx) as [Hl Hh].
  destruct (Z.lt_trichotomy (ilog2 x) k) as [Hlt|[Heq|Hgt]];
    [|exact Heq|].
  - pose proof (pow2_le (ilog2 x + 1) k ltac:(lia)). lra.
  - pose proof (pow2_le (k + 1) (ilog2 x) ltac:(lia)). lra.
Qed.

Lemma ilog2_comp (x y : Q) : 0 < x -> x == y -> ilog2 x = ilog2 y.
Proof.
  intros Hx Heq.
  destruct (ilog2_spec x Hx) as [Hl Hh].
  symmetry. apply ilog2_unique; lra.
Qed.

Lemma ilog2_le (x y : Q) : 0 < x -> x <= y -> (ilog2 x <= ilog2 y)%Z.
Proof.
  intros Hx Hle.
  destruct (ilog2_spec x Hx) as [Hl Hh].
  destruct (ilog2_spec y ltac:(lra)) as [Hl' Hh'].
  destruct (Z_le_gt_dec (ilog2 x) (ilog2 y)) as [H|H]; [exact H|].
  pose proof (pow2_le (ilog2 y + 1) (ilog2 x) ltac:(lia)). lra.
Qed.

End Powers.

Section Rounding.
Import Double.

Lemma exponent_le (x y : Q) :
  0 < x -> x <= y -> (exponent x <= exponent y)%Z.
Proof.
  intros Hx Hle. pose proof (ilog2_le x y Hx Hle).
  unfold exponent. lia.
Qed.

Lemma exponent_comp (x y : Q) : 0 < x -> x == y -> exponent x = exponent y.
Proof.
  intros Hx Heq. unfold exponent. now rewrite (ilog2_comp x y).
Qed.

Lemma scaled_below (x : Q) :
  0 < x -> x / pow2 (exponent x) < inject_Z (2 ^ 53).
Proof.
  intros Hx. destruct (ilog2_spec x Hx) as [_ Hhigh].
  apply Qlt_shift_div_r; [apply pow2_pos|].
  rewrite <- pow2_Z, <- pow2_add by lia.
  eapply Qlt_le_trans; [exact Hhigh|].
  apply pow2_le. unfold exponent. lia.
Qed.

Lemma scaled_above (x : Q) :
  0 < x -> (-1074 < exponent x)%Z ->
  inject_Z (2 ^ 52) <= x / pow2 (exponent x).
Proof.
  intros Hx Hclip. destruct (ilog2_spec x Hx) as [Hlow _].
  apply Qle_shift_div_l; [apply pow2_pos|].
  rewrite <- pow2_Z, <- pow2_add by lia.
  eapply Qle_trans; [|exact Hlow].
  apply pow2_le. unfold exponent in *. lia.
Qed.

Lemma magnitude_nonneg (x : Q) : 0 < x -> 0 <= round_magnitude x.
Proof.
  intros Hx. unfold round_magnitude.
  apply Qmult_le_0_compat; [|apply Qlt_le_weak, pow2_pos].
  change 0 with (inject_Z 0). rewrite <- Zle_Qle.
  rewrite <- (round_half_even_Z 0). apply round_half_even_le.
  apply Qle_shift_div_l; [apply pow2_pos|].
  change (inject_Z 0) with 0. lra.
Qed.

Lemma magnitude_upper (x : Q) :
  0 < x -> round_magnitude x <= pow2 (exponent x + 53).
Proof.
  intros Hx. unfold round_magnitude.
  rewrite Z.add_comm, pow2_add, (pow2_Z 53) by lia.
  apply Qmult_le_compat_r; [|apply Qlt_le_weak, pow2_pos].
  rewrite <- Zle_Qle.
  rewrite <- (round_half_even_Z (2 ^ 53)). apply round_half_even_le.
  apply Qlt_le_weak, scaled_below, Hx.
Qed.

Lemma magnitude_lower (x : Q) :
  0 < x -> (-1074 < exponent x)%Z ->
  pow2 (exponent x + 52) <= round_magnitude x.
Proof.
  intros Hx Hclip. unfold round_magnitude.
  rewrite Z.add_comm, pow2_add, (pow2_Z 52) by lia.
  apply Qmult_le_compat_r; [|apply Qlt_le_weak, pow2_pos].
  rewrite <- Zle_Qle.
  rewrite <- (round_half_even_Z (2 ^ 52)). apply round_half_even_le.
  now apply scaled_above.
Qed.

Lemma magnitude_le (x y : Q) :
  0 < x -> x <= y -> round_magnitude x <= round_magnitude y.
Proof.
  intros Hx Hle.
  pose proof (exponent_le x y Hx Hle) as Hexp.
  destruct (Z.eq_dec (exponent x) (exponent y)) as [Hsame|Hother].
  - unfold round_magnitude. rewrite Hsame.
    apply Qmult_le_compat_r; [|apply Qlt_le_weak, pow2_pos].
    rewrite <- Zle_Qle. apply round_half_even_le, scale_le, Hle.
  - eapply Qle_trans; [apply magnitude_upper, Hx|].
    eapply Qle_trans; [|apply magnitude_lower].
    + apply pow2_le. lia.
    + lra.
    + unfold exponent in *. lia.
Qed.

Lemma magnitude_comp (x y : Q) :
  0 < x -> x == y -> round_magnitude x = round_magnitude y.
Proof.
  intros Hx Heq. unfold round_magnitude.
  rewrite (exponent_comp x y Hx Heq).
  f_equal. f_equal. apply round_half_even_comp. now rewrite Heq.
Qed.

Lemma sign_cases (x : Q) :
  (x == 0 /\ round x = 0)
  \/ (0 < x /\ round x = round_magnitude x)
  \/ (x < 0 /\ round x = - round_magnitude (- x)).
Proof.
  destruct x as [[|p|p] d]; unfold round; cbn [Qnum].
  - left. split; reflexivity.
  - right. left. split; reflexivity.
  - right. right. split; reflexivity.
Qed.

(** Rounding keeps the order. *)
Lemma round_le (x y : Q) : x <= y -> round x <= round y.
Proof.
  intros Hle.
  destruct (sign_cases x) as [[Hx ->]|[[Hx ->]|[Hx ->]]];
    destruct (sign_cases y) as [[Hy ->]|[[Hy ->]|[Hy ->]]];
    try lra.
  - now apply magnitude_nonneg.
  - now apply magnitude_le.
  - pose proof (magnitude_nonneg (- x)). lra.
  - pose proof (magnitude_nonneg (- x)).
    pose proof (magnitude_nonneg y). lra.
  - pose proof (magnitude_le (- y) (- x)). lra.
Qed.

Lemma round_comp (x y : Q) : x == y -> round x == round y.
Proof.
  intros Heq.
  destruct (sign_cases x) as [[Hx ->]|[[Hx ->]|[Hx ->]]];
    destruct (sign_cases y) as [[Hy ->]|[[Hy ->]|[Hy ->]]];
    try lra.
  - now rewrite (magnitude_comp x y).
  - rewrite (magnitude_comp (- x) (- y)); [reflexivity|lra|].
    now rewrite Heq.
Qed.

Lemma magnitude_Z (k : Z) :
  (0 < k <= 2 ^ 53)%Z -> round_magnitude (inject_Z k) == inject_Z k.
Proof.
  intros Hk.
  assert (0 < inject_Z k) as Hpos.
  { change 0 with (inject_Z 0). rewrite <- Zlt_Qlt. lia. }
  destruct (log2_bounds k ltac:(lia)) as [Hlow Hhigh].
  assert (ilog2 (inject_Z k) = Z.log2 k) as Hlog
    by (now apply ilog2_unique).
  assert (Z.log2 k <= 53)%Z as Hsmall.
  { pose proof (Z.log2_le_mono k (2 ^ 53) ltac:(lia)) as Hmono.
    rewrite Z.log2_pow2 in Hmono by lia. exact Hmono. }
  pose proof (Z.log2_nonneg k) as Hnonneg.
  unfold round_magnitude, exponent. rewrite Hlog.
  remember (Z.max (Z.log2 k - 52) (-1074)) as e eqn:He.
  assert (exists m, inject_Z k / pow2 e == inject_Z m) as [m Hm].
  { destruct (Z_le_gt_dec e 0) as [Hle|Hgt].
    - exists (k * 2 ^ (- e))%Z.
      rewrite div_pow2, inject_Z_mult, pow2_Z by lia. reflexivity.
    - assert (Z.log2 k = 53)%Z as Hfull by lia.
      assert (e = 1)%Z as -> by lia.
      assert (k = 2 ^ 53)%Z as ->.
      { destruct (Z.log2_spec k ltac:(lia)) as [Hspec _].
        rewrite Hfull in Hspec. lia. }
      exists (2 ^ 52)%Z. reflexivity. }
  rewrite (round_half_even_comp _ _ Hm), round_half_even_Z, <- Hm.
  field. pose proof (pow2_pos e). lra.
Qed.

(** Integers of up to 53 bits are doubles. *)
Lemma round_Z (k : Z) :
  (Z.abs k <= 2 ^ 53)%Z -> round (inject_Z k) == inject_Z k.
Proof.
  intros Hk.
  destruct (sign_cases (inject_Z k)) as [[Hx ->]|[[Hx ->]|[Hx ->]]].
  - now symmetry.
  - apply magnitude_Z.
    change 0 with (inject_Z 0) in Hx. rewrite <- Zlt_Qlt in Hx. lia.
  - change 0 with (inject_Z 0) in Hx. rewrite <- Zlt_Qlt in Hx.
    rewrite <- inject_Z_opp, magnitude_Z by lia.
    rewrite inject_Z_opp. ring.
Qed.

(** Every double is a multiple of the smallest one. *)
Lemma magnitude_grid (x : Q) :
  exists m : Z, round_magnitude x == inject_Z m * pow2 (-1074).
Proof.
  unfold round_magnitude.
  set (e := exponent x).
  exists (ELDLog.round_half_even (x / pow2 e) * 2 ^ (e + 1074))%Z.
  rewrite inject_Z_mult, <- pow2_Z by (unfold e, exponent; lia).
  rewrite <- Qmult_assoc, <- pow2_add.
  replace (e + 1074 + -1074)%Z with e by lia. reflexivity.
Qed.

Lemma round_grid (x : Q) :
  exists m : Z, round x == inject_Z m * pow2 (-1074).
Proof.
  destruct (sign_cases x) as [[Hx ->]|[[Hx ->]|[Hx ->]]].
  - exists 0%Z. ring.
  - apply magnitude_grid.
  - destruct (magnitude_grid (- x)) as [m Hm].
    exists (- m)%Z. rewrite Hm, inject_Z_opp. ring.
Qed.

Lemma round_0 : round 0 = 0.
Proof. reflexivity. Qed.

Lemma round_nonneg (x : Q) : 0 <= x -> 0 <= round x.
Proof. intros Hx. rewrite <- round_0. now apply round_le. Qed.

(** The smallest double is a double, and rounding takes no value above it
    to zero. *)
Lemma round_smallest : round (pow2 (-1074)) == pow2 (-1074).
Proof. vm_compute. reflexivity. Qed.

End Rounding.

(** ** Machine arithmetic *)

Section MachineArithmetic.

Lemma double_div_ok (a b : Q) :
  ~ b == 0 -> Double.div a b = Ret (Double.round (a / b)).
Proof.
  intros Hb. unfold Double.div.
  destruct (Qeq_bool b 0) eqn:E; [|reflexivity].
  apply Qeq_bool_iff in E. contradiction.
Qed.

Lemma double_div_zero (a b : Q) :
  b == 0 -> Double.div a b = Raise ZeroDivisionError.
Proof.
  intros Hb. unfold Double.div.
  apply Qeq_bool_iff in Hb. now rewrite Hb.
Qed.

Lemma of_int_exact (k : Z) :
  (Z.abs k <= 2 ^ 53)%Z -> Double.of_int k == inject_Z k.
Proof. apply round_Z. Qed.

(** The difference of two doubles rounds to zero only when it is zero. *)
Lemma round_grid_positive (x y : Q) :
  Double.representable x -> Double.representable y -> x < y ->
  0 < Double.sub y x.
Proof.
  unfold Double.representable, Double.sub. intros Hx Hy Hlt.
  destruct (round_grid x) as [m Hm]. destruct (round_grid y) as [n Hn].
  rewrite Hx in Hm. rewrite Hy in Hn.
  pose proof (pow2_pos (-1074)) as Hunit.
  assert (m < n)%Z as Hmn.
  { destruct (Z_lt_ge_dec m n) as [H|H]; [exact H|exfalso].
    assert (inject_Z n <= inject_Z m) as Hle by (rewrite <- Zle_Qle; lia).
    pose proof (Qmult_le_compat_r _ _ (Double.pow2 (-1074)) Hle
                  (Qlt_le_weak _ _ Hunit)).
    lra. }
  assert (Double.pow2 (-1074) <= y - x) as Hgap.
  { rewrite Hm, Hn.
    assert (inject_Z (m + 1) <= inject_Z n) as Hone
      by (rewrite <- Zle_Qle; lia).
    pose proof (Qmult_le_compat_r _ _ (Double.pow2 (-1074)) Hone
                  (Qlt_le_weak _ _ Hunit)) as Hscaled.
    rewrite inject_Z_plus in Hscaled.
    change (inject_Z 1) with 1 in Hscaled. lra. }
  apply round_le in Hgap.
  rewrite round_smallest in Hgap. lra.
Qed.

Lemma list_index_lookup {A : Type} (items : list A) (i : Z) :
  (0 <= i < Z.of_nat (length items))%Z ->
  exists item,
    Machine.list_index items i = Ret item
    /\ items !! Z.to_nat i = Some item.
Proof.
  intros Hrange. unfold Machine.list_index.
  assert ((i <? 0)%Z = false) as Hneg by (apply Z.ltb_ge; lia).
  destruct (lookup_lt_is_Some_2 items (Z.to_nat i)) as [item Hitem];
    [lia|].
  rewrite Hneg. cbv beta iota zeta. rewrite Hneg, Hitem.
  exists item. split; reflexivity.
Qed.

Lemma list_index_last {A : Type} (items : list A) :
  items <> [] ->
  exists item,
    Machine.list_index items (-1) = Ret item /\ last items = Some item.
Proof.
  intros Hitems. unfold Machine.list_index.
  assert (0 < Z.of_nat (length items))%Z as Hlen
    by (destruct items; [contradiction|simpl length; lia]).
  change (-1 <? 0)%Z with true. cbv beta iota zeta.
  assert ((-1 + Z.of_nat (length items) <? 0)%Z = false) as ->
    by (apply Z.ltb_ge; lia).
  rewrite last_lookup.
  replace (Z.to_nat (-1 + Z.of_nat (length items)))
    with (pred (length items)) by lia.
  destruct (lookup_lt_is_Some_2 items (pred (length items)))
    as [item Hitem]; [lia|].
  rewrite Hitem. exists item. split; reflexivity.
Qed.

End MachineArithmetic.

(** ** Interpolation in doubles *)

(** On a route that is not empty, the three cases of
    [_interpolate_location]. *)
Lemma machine_interpolate_cases (route : list (Q * Q)) (progress : Q)
    (first : Q * Q) (rest : list (Q * Q)) :
  route = first :: rest ->
  Machine.ELDComplianceService._interpolate_location route progress =
    if Qle_bool progress 0 then
      Ret (mk_Location (fst first) (snd first) "Route location")
    else if Qle_bool 1 progress then
      do coord <- Machine.list_index route (-1) ;
      Ret (mk_Location (fst coord) (snd coord) "Route location")
    else
      do coord <-
        Machine.list_index route
          (py_int (Double.mul progress
                     (Double.of_int (Z.of_nat (length route) - 1)))) ;
      Ret (mk_Location (fst coord) (snd coord)
             ("Mile marker "
                +:+ pretty (py_int (Double.mul progress 1000)))).
Proof.
  intros ->. reflexivity.
Qed.

Section MachineInterpolation.
Import Machine.ELDComplianceService.

Variable route : list (Q * Q).
Hypothesis route_size : (Z.of_nat (length route) - 1 <= 2 ^ 53)%Z.

Let top : Z := (Z.of_nat (length route) - 1)%Z.

(** The end points aside, the scaled progress stays within the indices
    of the route. *)
Lemma machine_scaled_range (progress : Q) :
  route <> [] -> 0 <= progress -> progress <= 1 ->
  0 <= Double.mul progress (Double.of_int top)
  /\ Double.mul progress (Double.of_int top) <= inject_Z top.
Proof.
  intros Hroute H0 H1.
  assert (0 <= top)%Z as Htop
    by (unfold top; destruct route; [contradiction|simpl length; lia]).
  assert (0 <= inject_Z top) as Htop'.
  { change 0 with (inject_Z 0). now rewrite <- Zle_Qle. }
  pose proof (of_int_exact top ltac:(unfold top in *; lia)) as Hexact.
  unfold Double.mul.
  assert (Double.round (progress * Double.of_int top)
          == Double.round (progress * inject_Z top)) as ->
    by (apply round_comp; now rewrite Hexact).
  split.
  - apply round_nonneg. now apply Qmult_le_0_compat.
  - pose proof (round_Z top ltac:(unfold top in *; lia)) as Hfix.
    assert (Double.round (progress * inject_Z top)
            <= Double.round (inject_Z top)) as Hle; [|lra].
    apply round_le.
    rewrite <- (Qmult_1_l (inject_Z top)) at 2.
    now apply Qmult_le_compat_r.
Qed.

Lemma machine_index_range (progress : Q) :
  route <> [] -> (0 <= interpolate_index route progress <= top)%Z.
Proof.
  intros Hroute.
  assert (0 <= top)%Z as Htop
    by (unfold top; destruct route; [contradiction|simpl length; lia]).
  unfold interpolate_index. fold top.
  destruct (Qle_bool progress 0) eqn:Hlow; [lia|].
  destruct (Qle_bool 1 progress) eqn:Hhigh; [lia|].
  apply Qle_bool_gt in Hlow, Hhigh.
  destruct (machine_scaled_range progress Hroute) as [Hge Hle];
    [lra|lra|].
  rewrite py_int_floor by exact Hge.
  apply (Qfloor_resp_le (inject_Z 0)) in Hge.
  apply Qfloor_resp_le in Hle.
  rewrite Qfloor_Z in Hge, Hle. lia.
Qed.

Lemma machine_index_monotone (p q : Q) :
  route <> [] -> p <= q ->
  (interpolate_index route p <= interpolate_index route q)%Z.
Proof.
  intros Hroute Hpq.
  pose proof (machine_index_range p Hroute) as Hp.
  pose proof (machine_index_range q Hroute) as Hq.
  revert Hp Hq. unfold interpolate_index. fold top.
  destruct (Qle_bool p 0) eqn:Hp0; [lia|].
  apply Qle_bool_gt in Hp0.
  destruct (Qle_bool q 0) eqn:Hq0;
    [apply Qle_bool_iff in Hq0; lra|].
  destruct (Qle_bool 1 q) eqn:Hq1; [destruct (Qle_bool 1 p); lia|].
  apply Qle_bool_gt in Hq1.
  destruct (Qle_bool 1 p) eqn:Hp1; [apply Qle_bool_iff in Hp1; lra|].
  intros _ _.
  destruct (machine_scaled_range p Hroute) as [Hpge _]; [lra|lra|].
  destruct (machine_scaled_range q Hroute) as [Hqge _]; [lra|lra|].
  rewrite !py_int_floor by assumption.
  apply Qfloor_resp_le, round_le, Qmult_le_compat_r; [exact Hpq|].
  apply round_nonneg.
  change 0 with (inject_Z 0). rewrite <- Zle_Qle.
  unfold top. destruct route; [contradiction|simpl length; lia].
Qed.

(** The point returned is the one at [interpolate_index]; no subscript is
    out of range. *)
Lemma machine_interpolate_at_index (progress : Q) :
  route <> [] ->
  exists point,
    route !! Z.to_nat (interpolate_index route progress) = Some point
    /\ _interpolate_location route progress
       = Ret (mk_Location (fst point) (snd point)
                (if Qle_bool progress 0 || Qle_bool 1 progress
                 then "Route location"
                 else "Mile marker "
                      +:+ pretty (py_int (Double.mul progress 1000)))).
Proof.
  intros Hroute.
  pose proof (machine_index_range progress Hroute) as Hrange.
  assert (exists first rest, route = first :: rest)
    as (first & rest & Hshape)
    by (destruct route; [contradiction|eauto]).
  rewrite (machine_interpolate_cases route progress first rest Hshape).
  revert Hrange. unfold interpolate_index. fold top.
  destruct (Qle_bool progress 0).
  - intros _. exists first. rewrite Hshape. split; reflexivity.
  - destruct (Qle_bool 1 progress).
    + intros _.
      destruct (list_index_last route Hroute) as (point & -> & Hlast).
      exists point. split; [|reflexivity].
      rewrite <- Hlast, last_lookup. f_equal. unfold top. lia.
    + intros Hrange.
      destruct (list_index_lookup route
                  (py_int (Double.mul progress (Double.of_int top))))
        as (point & -> & Hpoint); [unfold top in *; lia|].
      exists point. split; [exact Hpoint|reflexivity].
Qed.

End MachineInterpolation.

Lemma machine_interpolate_returns (route : list (Q * Q)) (progress : Q) :
  (Z.of_nat (length route) - 1 <= 2 ^ 53)%Z ->
  exists place,
    Machine.ELDComplianceService._interpolate_location route progress
    = Ret place.
Proof.
  intros Hsize.
  assert (route = [] \/ route <> []) as [->|Hroute]
    by (destruct route; [left; reflexivity|right; discriminate]).
  - eexists; reflexivity.
  - destruct (machine_interpolate_at_index route Hsize progress Hroute)
      as (point & _ & ->).
    eexists; reflexivity.
Qed.

(** ** The planner in doubles *)

Section MachinePlan.
Import Machine.ELDComplianceService.

Variable trip : Trip.
Variable current_date : date.

Let total : Q := estimated_drive_time_hours trip.
Let miles : Q := total_distance_miles trip.
Let allowance : Q :=
  Qmin 11 (Double.sub 70 (current_cycle_used_hours trip)).

Lemma machine_rest_stop_returns (kind : string) (at_time : datetime)
    (hours distance : Q) (mandatory : bool) (reason : string) :
  ~ miles == 0 ->
  (Z.of_nat (length (route_coordinates trip)) - 1 <= 2 ^ 53)%Z ->
  exists place,
    rest_stop trip kind at_time hours distance mandatory reason
    = Ret (mk_RestStopData kind place at_time hours distance mandatory
             reason).
Proof.
  intros Hmiles Hsize. unfold rest_stop.
  rewrite double_div_ok by exact Hmiles. cbn [py_bind].
  destruct (machine_interpolate_returns (route_coordinates trip)
              (Double.round (distance / total_distance_miles trip)) Hsize)
    as [place ->].
  exists place. reflexivity.
Qed.

Ltac stop_returns Hm Hsize :=
  match goal with
  | |- context [rest_stop _ ?kind ?at_time ?hours ?distance ?mandatory
                  ?reason] =>
      let place := fresh "place" in
      destruct (machine_rest_stop_returns kind at_time hours distance
                  mandatory reason Hm Hsize) as [place ->];
      cbn [py_bind]
  end.

Lemma date_add_days_ok (day : Z) :
  (0 <= day)%Z ->
  (1 <= current_date)%Z ->
  (current_date + day <= Machine.date_max)%Z ->
  Machine.date_add_days current_date day = Ret (current_date + day)%Z.
Proof.
  unfold Machine.date_add_days, Machine.date_max,
    Machine.timedelta_max_days.
  intros Hday Hfirst Hlast.
  assert ((999999999 <? Z.abs day)%Z = false) as ->
    by (apply Z.ltb_ge; lia).
  assert ((1 <=? current_date + day)%Z = true) as ->
    by (apply Z.leb_le; lia).
  assert ((current_date + day <=? 3652059)%Z = true) as ->
    by (apply Z.leb_le; lia).
  reflexivity.
Qed.

(** A day within the calendar, with hours and miles that are not zero,
    raises nothing. *)
Lemma machine_plan_day_returns (day : Z)
    (st : ELDComplianceService.loop_state) :
  ~ total == 0 -> ~ miles == 0 ->
  (Z.of_nat (length (route_coordinates trip)) - 1 <= 2 ^ 53)%Z ->
  (0 <= day)%Z -> (1 <= current_date)%Z ->
  (current_date + day <= Machine.date_max)%Z ->
  exists st', plan_day trip current_date day st = Ret st'.
Proof.
  intros Ht Hm Hsize Hday Hfirst Hlast. unfold plan_day.
  rewrite date_add_days_ok by assumption. cbn [py_bind].
  rewrite !double_div_ok by assumption.
  destruct (Qltb 8 _); cbn [py_bind]; [stop_returns Hm Hsize|];
    (destruct (_ && _); cbn [py_bind]; [stop_returns Hm Hsize|]);
    (destruct (Qltb 0 _); cbn [py_bind]; [stop_returns Hm Hsize|]);
    eexists; reflexivity.
Qed.

Lemma machine_plan_days_returns (count : nat) :
  ~ total == 0 -> ~ miles == 0 ->
  (Z.of_nat (length (route_coordinates trip)) - 1 <= 2 ^ 53)%Z ->
  (1 <= current_date)%Z ->
  forall (day : Z) (st : ELDComplianceService.loop_state),
    (0 <= day)%Z ->
    (current_date + day + Z.of_nat count <= Machine.date_max + 1)%Z ->
    exists st', plan_days trip current_date count day st = Ret st'.
Proof.
  intros Ht Hm Hsize Hfirst.
  induction count as [|count IH]; intros day st Hday Hlast; simpl.
  - eexists; reflexivity.
  - destruct (machine_plan_day_returns day st Ht Hm Hsize Hday Hfirst)
      as [mid ->]; [lia|].
    simpl. apply IH; lia.
Qed.

(** What a returned plan says about the days. *)
Lemma machine_plan_inv (plan : CompliancePlan) :
  generate_compliance_plan trip current_date = Ret plan ->
  ~ allowance == 0
  /\ total_days plan = Qceiling (Double.round (total / allowance))
  /\ days_required (compliance_summary plan) = total_days plan
  /\ exists final,
       plan_days trip current_date
         (Z.to_nat (Qceiling (Double.round (total / allowance)))) 0
         (ELDComplianceService.mk_loop_state [] [] total 0) = Ret final
       /\ rest_stops plan = ELDComplianceService.st_rest_stops final
       /\ eld_logs plan = ELDComplianceService.st_eld_logs final.
Proof.
  unfold generate_compliance_plan, Double.div, available_drive_hours,
    cycle_hours_left, math_ceil.
  fold allowance. fold total.
  destruct (Qeq_bool allowance 0) eqn:Hzero; simpl; [discriminate|].
  destruct (plan_days _ _ _ _ _) as [final|] eqn:Hloop; simpl;
    [|discriminate].
  intros H. injection H as <-. simpl.
  split; [intros Heq; apply Qeq_bool_iff in Heq; congruence|].
  split; [reflexivity|]. split; [reflexivity|].
  exists final. repeat split.
Qed.

Lemma machine_plan_returns :
  ~ total == 0 -> ~ miles == 0 -> ~ allowance == 0 ->
  (Z.of_nat (length (route_coordinates trip)) - 1 <= 2 ^ 53)%Z ->
  (1 <= current_date <= Machine.date_max)%Z ->
  (current_date + Qceiling (Double.round (total / allowance)) - 1
   <= Machine.date_max)%Z ->
  exists plan, generate_compliance_plan trip current_date = Ret plan.
Proof.
  intros Ht Hm Ha Hsize Htoday Hlast.
  unfold generate_compliance_plan, available_drive_hours,
    cycle_hours_left, math_ceil.
  fold allowance. fold total.
  rewrite double_div_ok by exact Ha. cbn [py_bind].
  destruct (machine_plan_days_returns
              (Z.to_nat (Qceiling (Double.round (total / allowance))))
              Ht Hm Hsize ltac:(lia) 0%Z
              (ELDComplianceService.mk_loop_state [] [] total 0))
    as [final ->]; [lia|lia|].
  cbn [py_bind]. eexists; reflexivity.
Qed.

(** A driver whose hours in the cycle are a double below 70 has hours
    left. *)
Lemma machine_allowance_positive :
  Double.representable (current_cycle_used_hours trip) ->
  current_cycle_used_hours trip < 70 ->
  0 < allowance.
Proof.
  intros Hdouble Hbelow. unfold allowance.
  pose proof (round_grid_positive (current_cycle_used_hours trip) 70
                Hdouble ltac:(vm_compute; reflexivity) Hbelow) as Hleft.
  apply Q.min_glb_lt; [reflexivity|exact Hleft].
Qed.

End MachinePlan.


(** ** The day loop of the planner *)

Section PlanLoop.
Import ELDComplianceService Schedule.

Variable trip : Trip.
Variable current_date : date.

Let total : Q := estimated_drive_time_hours trip.
Let used : Q := current_cycle_used_hours trip.

Ltac split_binds H :=
  repeat match type of H with
  | context [match ?m with Ret _ => _ | Raise _ => _ end] =>
      destruct m; try discriminate H
  end.

(** What one iteration does to the log list and to the hours left. *)
Lemma plan_day_logs (day : Z) (st st' : loop_state) :
  plan_day trip current_date day st = Ret st' ->
  st_eld_logs st' =
    st_eld_logs st
    ++ _generate_daily_logs (current_date + day)%Z
         (daily_drive_hours trip day (remaining_drive_hours st))
         (day =? 0)%Z
  /\ remaining_drive_hours st' =
       remaining_drive_hours st
       - daily_drive_hours trip day (remaining_drive_hours st).
Proof.
  unfold plan_day, py_bind. intros H.
  split_binds H.
  injection H as <-. simpl. split; reflexivity.
Qed.

Lemma plan_days_logs (count : nat) :
  forall (day : Z) (st st' : loop_state),
    plan_days trip current_date count day st = Ret st' ->
    st_eld_logs st' =
      st_eld_logs st
      ++ logs_of_days trip current_date count day (remaining_drive_hours st)
    /\ remaining_drive_hours st' =
         remaining_after trip count day (remaining_drive_hours st).
Proof.
  induction count as [|count IH]; intros day st st' H; simpl in *.
  - injection H as <-. rewrite app_nil_r. split; reflexivity.
  - unfold py_bind in H.
    destruct (plan_day trip current_date day st) as [mid|] eqn:Hday;
      [|discriminate].
    apply plan_day_logs in Hday as [Hlogs Hrem].
    apply IH in H as [Hlogs' Hrem'].
    rewrite Hlogs', Hrem', Hlogs, Hrem, <- app_assoc.
    split; reflexivity.
Qed.

(** With hours and miles that are not zero, no division of the loop
    raises. *)
Lemma plan_day_returns (day : Z) (st : loop_state) :
  ~ total == 0 -> ~ total_distance_miles trip == 0 ->
  exists st', plan_day trip current_date day st = Ret st'.
Proof.
  intros Ht Hd. unfold plan_day.
  rewrite !py_div_ok by assumption.
  destruct (Qltb 8 _); simpl;
    rewrite ?py_div_ok by assumption; simpl;
    destruct (_ && _); simpl;
    rewrite ?py_div_ok by assumption; simpl;
    destruct (Qltb 0 _); simpl;
    rewrite ?py_div_ok by assumption; simpl; eexists; reflexivity.
Qed.

Lemma plan_days_returns (count : nat) :
  ~ total == 0 -> ~ total_distance_miles trip == 0 ->
  forall (day : Z) (st : loop_state),
    exists st', plan_days trip current_date count day st = Ret st'.
Proof.
  intros Ht Hd.
  induction count as [|count IH]; intros day st; simpl.
  - eexists; reflexivity.
  - destruct (plan_day_returns day st Ht Hd) as [mid ->]. simpl.
    apply IH.
Qed.

End PlanLoop.

(** ** The daily allocation *)

Ltac name_min x y :=
  let m := fresh "m" in
  let E := fresh "E" in
  pose proof (Q.min_spec x y);
  remember (Qmin x y) as m eqn:E in *; clear E.

Ltac name_max x y :=
  let m := fresh "m" in
  let E := fresh "E" in
  pose proof (Q.max_spec x y);
  remember (Qmax x y) as m eqn:E in *; clear E.

(** Replaces every minimum and maximum by a name and its defining cases. *)
Ltac elim_minmax :=
  repeat match goal with
  | |- context [Qmin ?x ?y] => name_min x y
  | |- context [Qmax ?x ?y] => name_max x y
  | _ : context [Qmin ?x ?y] |- _ => name_min x y
  | _ : context [Qmax ?x ?y] |- _ => name_max x y
  end.

Section SumHours.

Lemma sum_hours_app (keep : LogData -> bool) (xs ys : list LogData) :
  sum_hours keep (xs ++ ys) == sum_hours keep xs + sum_hours keep ys.
Proof.
  induction xs as [|x xs IH]; simpl.
  - lra.
  - destruct (keep x); rewrite IH; lra.
Qed.

Lemma sum_over_days_app (count : nat) :
  forall (first : date) (xs ys : list LogData),
    sum_over_days count first (xs ++ ys)
    == sum_over_days count first xs + sum_over_days count first ys.
Proof.
  induction count as [|count IH]; intros first xs ys; simpl.
  - lra.
  - unfold driving_hours_on. rewrite sum_hours_app, IH. lra.
Qed.

End SumHours.

Section DailyLogs.
Import ELDComplianceService.

Variables (day : date) (hours : Q) (first : bool).

Lemma daily_logs_driving (on : date) :
  driving_hours_on on (_generate_daily_logs day hours first)
  == if (day =? on)%Z then hours else 0.
Proof.
  unfold driving_hours_on, _generate_daily_logs, on_date, is_driving.
  destruct first, (Qle_bool hours 8); simpl;
    destruct (day =? on)%Z; simpl; lra.
Qed.

Lemma daily_logs_duty (on : date) :
  duty_hours_on on (_generate_daily_logs day hours first)
  == if (day =? on)%Z then hours + (if first then 1 else 0) else 0.
Proof.
  unfold duty_hours_on, _generate_daily_logs, on_date, is_driving,
    is_on_duty.
  destruct first, (Qle_bool hours 8); simpl;
    destruct (day =? on)%Z; simpl; lra.
Qed.

Lemma daily_logs_total :
  sum_hours is_driving (_generate_daily_logs day hours first) == hours.
Proof.
  unfold _generate_daily_logs, is_driving.
  destruct first, (Qle_bool hours 8); simpl; lra.
Qed.

Lemma daily_logs_later (count : nat) :
  forall from : date,
    (day < from)%Z ->
    sum_over_days count from (_generate_daily_logs day hours first) == 0.
Proof.
  induction count as [|count IH]; intros from Hlt; simpl.
  - lra.
  - rewrite daily_logs_driving, IH by lia.
    destruct (Z.eqb_spec day from); [lia|lra].
Qed.

End DailyLogs.

Section Allocation.
Import ELDComplianceService Schedule.

Variable trip : Trip.
Variable current_date : date.

Let used : Q := current_cycle_used_hours trip.
Let available : Q := available_drive_hours trip.

Lemma daily_at_most_cap (day : Z) (remaining : Q) :
  daily_drive_hours trip day remaining <= 11.
Proof.
  unfold daily_drive_hours, MAX_DRIVING_HOURS_DAILY, MAX_CYCLE_HOURS.
  destruct (day =? 0)%Z; elim_minmax; lra.
Qed.

Lemma daily_at_most_remaining (day : Z) (remaining : Q) :
  daily_drive_hours trip day remaining <= remaining.
Proof.
  unfold daily_drive_hours, MAX_DRIVING_HOURS_DAILY, MAX_CYCLE_HOURS.
  destruct (day =? 0)%Z; elim_minmax; lra.
Qed.

(** Every day takes at least the first day's allowance, or all that is
    left. *)
Lemma daily_at_least (day : Z) (remaining : Q) :
  Qmin remaining available <= daily_drive_hours trip day remaining.
Proof.
  unfold daily_drive_hours, available, available_drive_hours,
    MAX_DRIVING_HOURS_DAILY, MAX_CYCLE_HOURS.
  destruct (day =? 0)%Z; elim_minmax; lra.
Qed.

Lemma remaining_after_nonneg (count : nat) :
  forall (day : Z) (remaining : Q),
    0 <= remaining -> 0 <= remaining_after trip count day remaining.
Proof.
  induction count as [|count IH]; intros day remaining H; simpl.
  - exact H.
  - apply IH. pose proof (daily_at_most_remaining day remaining). lra.
Qed.

(** Once the allowance of the days to come covers the hours left, the
    loop ends with nothing left. *)
Lemma remaining_after_zero (count : nat) :
  0 < available ->
  forall (day : Z) (remaining : Q),
    0 <= remaining ->
    remaining <= inject_Z (Z.of_nat count) * available ->
    remaining_after trip count day remaining == 0.
Proof.
  intros Ha.
  induction count as [|count IH]; intros day remaining H0 Hle.
  - change (inject_Z (Z.of_nat 0)) with 0 in Hle. simpl. lra.
  - cbn [remaining_after].
    pose proof (daily_at_most_remaining day remaining).
    pose proof (daily_at_least day remaining) as Hleast.
    apply IH; [lra|].
    rewrite Nat2Z.inj_succ, <- Z.add_1_r, inject_Z_plus in Hle.
    change (inject_Z 1) with 1 in Hle.
    assert (0 <= inject_Z (Z.of_nat count) * available) as Hprod.
    { apply Qmult_le_0_compat; [|lra].
      change 0 with (inject_Z 0). rewrite <- Zle_Qle. lia. }
    revert Hleast. elim_minmax. intros Hleast. lra.
Qed.

(** No log of the days from [day] on is dated before [day]. *)
Lemma logs_of_days_earlier (count : nat) :
  forall (day : Z) (remaining : Q) (on : date),
    (on < current_date + day)%Z ->
    driving_hours_on on (logs_of_days trip current_date count day remaining)
    == 0
    /\ duty_hours_on on (logs_of_days trip current_date count day remaining)
       == 0.
Proof.
  induction count as [|count IH]; intros day remaining on Hlt; simpl.
  - unfold driving_hours_on, duty_hours_on. simpl. split; lra.
  - unfold driving_hours_on, duty_hours_on. rewrite !sum_hours_app.
    fold (driving_hours_on on
            (_generate_daily_logs (current_date + day)%Z
               (daily_drive_hours trip day remaining) (day =? 0)%Z)).
    fold (duty_hours_on on
            (_generate_daily_logs (current_date + day)%Z
               (daily_drive_hours trip day remaining) (day =? 0)%Z)).
    rewrite daily_logs_driving, daily_logs_duty.
    destruct (Z.eqb_spec (current_date + day) on); [lia|].
    destruct (IH (day + 1)%Z
                (remaining - daily_drive_hours trip day remaining) on)
      as [Hd Hu]; [lia|].
    unfold driving_hours_on in Hd. unfold duty_hours_on in Hu.
    rewrite Hd, Hu. split; lra.
Qed.

(** The daily limits hold on every calendar day. *)
Lemma logs_of_days_limits (count : nat) :
  forall (day : Z) (remaining : Q) (on : date),
    (0 <= day)%Z ->
    driving_hours_on on (logs_of_days trip current_date count day remaining)
    <= 11
    /\ duty_hours_on on (logs_of_days trip current_date count day remaining)
       <= 14.
Proof.
  induction count as [|count IH]; intros day remaining on Hday; simpl.
  - unfold driving_hours_on, duty_hours_on. simpl. split; lra.
  - unfold driving_hours_on, duty_hours_on. rewrite !sum_hours_app.
    fold (driving_hours_on on
            (_generate_daily_logs (current_date + day)%Z
               (daily_drive_hours trip day remaining) (day =? 0)%Z)).
    fold (duty_hours_on on
            (_generate_daily_logs (current_date + day)%Z
               (daily_drive_hours trip day remaining) (day =? 0)%Z)).
    rewrite daily_logs_driving, daily_logs_duty.
    pose proof (daily_at_most_cap day remaining) as Hcap.
    destruct (Z.eqb_spec (current_date + day) on) as [<-|Hne].
    + destruct (logs_of_days_earlier count (day + 1)%Z
                  (remaining - daily_drive_hours trip day remaining)
                  (current_date + day)%Z) as [Hd Hu]; [lia|].
      unfold driving_hours_on in Hd. unfold duty_hours_on in Hu.
      rewrite Hd, Hu. destruct (day =? 0)%Z; split; lra.
    + destruct (IH (day + 1)%Z
                  (remaining - daily_drive_hours trip day remaining) on)
        as [Hd Hu]; [lia|].
      unfold driving_hours_on in Hd. unfold duty_hours_on in Hu.
      split; lra.
Qed.

(** Driving hours logged plus hours left make the hours at the start. *)
Lemma logs_of_days_account (count : nat) :
  forall (day : Z) (remaining : Q),
    sum_over_days count (current_date + day)%Z
      (logs_of_days trip current_date count day remaining)
    + remaining_after trip count day remaining == remaining
    /\ sum_hours is_driving
         (logs_of_days trip current_date count day remaining)
       + remaining_after trip count day remaining == remaining.
Proof.
  induction count as [|count IH]; intros day remaining.
  - simpl. split; lra.
  - cbn [sum_over_days logs_of_days remaining_after].
    destruct (IH (day + 1)%Z
                (remaining - daily_drive_hours trip day remaining))
      as [Hdays Hall].
    split.
    + unfold driving_hours_on. rewrite sum_hours_app, sum_over_days_app.
      fold (driving_hours_on (current_date + day)%Z
              (_generate_daily_logs (current_date + day)%Z
                 (daily_drive_hours trip day remaining) (day =? 0)%Z)).
      fold (driving_hours_on (current_date + day)%Z
              (logs_of_days trip current_date count (day + 1)%Z
                 (remaining - daily_drive_hours trip day remaining))).
      rewrite daily_logs_driving, Z.eqb_refl.
      rewrite daily_logs_later by lia.
      destruct (logs_of_days_earlier count (day + 1)%Z
                  (remaining - daily_drive_hours trip day remaining)
                  (current_date + day)%Z) as [Hd _]; [lia|].
      rewrite Hd.
      replace (current_date + day + 1)%Z
        with (current_date + (day + 1))%Z by lia.
      lra.
    + rewrite sum_hours_app, daily_logs_total. lra.
Qed.

End Allocation.

(** ** The compliance plan *)

Section CompliancePlans.
Import ELDComplianceService Schedule.

Variable trip : Trip.
Variable current_date : date.

Let total : Q := estimated_drive_time_hours trip.
Let used : Q := current_cycle_used_hours trip.
Let miles : Q := total_distance_miles trip.
Let first_day : Q := Qmin 11 (70 - used).

Lemma first_day_positive : 0 <= used -> used < 70 -> 0 < first_day.
Proof.
  unfold first_day. intros H0 H70. elim_minmax. lra.
Qed.

(** What a returned plan is made of. *)
Lemma generate_compliance_plan_inv (plan : CompliancePlan) :
  generate_compliance_plan trip current_date = Ret plan ->
  ~ first_day == 0
  /\ total_days plan = Qceiling (total / first_day)
  /\ days_required (compliance_summary plan) = Qceiling (total / first_day)
  /\ eld_logs plan =
       logs_of_days trip current_date
         (Z.to_nat (Qceiling (total / first_day))) 0 total.
Proof.
  unfold generate_compliance_plan, py_div, available_drive_hours,
    MAX_DRIVING_HOURS_DAILY, MAX_CYCLE_HOURS, math_ceil.
  fold used. fold first_day. fold total.
  destruct (Qeq_bool first_day 0) eqn:Hzero; simpl; [discriminate|].
  destruct (plan_days _ _ _ _ _) as [final|] eqn:Hloop; simpl;
    [|discriminate].
  intros H. injection H as <-. simpl.
  apply plan_days_logs in Hloop as [Hlogs _]. simpl in Hlogs.
  repeat split; try assumption.
  intros Heq. apply Qeq_bool_iff in Heq. congruence.
Qed.

(** A trip within its cycle, over a distance that is not zero, gets a
    plan. *)
Lemma generate_compliance_plan_returns :
  0 < total -> 0 <= used -> used < 70 -> ~ miles == 0 ->
  exists plan, generate_compliance_plan trip current_date = Ret plan.
Proof.
  intros Ht H0 H70 Hm.
  pose proof (first_day_positive H0 H70) as Hfirst.
  unfold generate_compliance_plan, available_drive_hours,
    MAX_DRIVING_HOURS_DAILY, MAX_CYCLE_HOURS.
  fold used. fold first_day. fold total.
  rewrite py_div_ok by lra. simpl.
  destruct (plan_days_returns trip current_date
              (Z.to_nat (math_ceil (total / first_day)))
              ltac:(fold total; lra) Hm 0%Z
              (mk_loop_state [] [] total 0)) as [final ->].
  simpl. eexists; reflexivity.
Qed.

(** The day count, taken from the first day's allowance, covers the
    hours. *)
Lemma days_cover_total :
  0 < total -> 0 < first_day ->
  total
  <= inject_Z (Z.of_nat (Z.to_nat (Qceiling (total / first_day))))
     * first_day.
Proof.
  intros Ht Hfirst.
  pose proof (Qle_ceiling (total / first_day)) as Hceil.
  assert (0 < total / first_day) as Hratio
    by (apply Qlt_shift_div_l; lra).
  assert (0 <= Qceiling (total / first_day))%Z as Hnonneg.
  { rewrite Zle_Qle. change (inject_Z 0) with 0. lra. }
  rewrite Z2Nat.id by assumption.
  assert (total == total / first_day * first_day) as Hsplit
    by (field; lra).
  rewrite Hsplit at 1.
  apply Qmult_le_compat_r; [exact Hceil|lra].
Qed.

End CompliancePlans.

(** * The claims about the planner *)

Import ELDComplianceService.

(** C1.  For a trip with [total_drive_hours > 0] and
    [0 <= cycle_used_hours < 70], the [total_days] and [days_required] of the
    generated plan are [ceil(total_drive_hours / min(11, 70 - cycle_used))]
    as the interpreter evaluates it, the subtraction and the division each
    rounding to the nearest double; the value is computed once, from the
    first day's allowance.  Such a trip gets a plan when its cycle hours are
    a double, its distance is not zero and its days fit the calendar.  With
    65 hours used and 20 to drive the allowance is 5 and the plan takes 4
    days. *)
Theorem days_required_first_day_allowance
    (trip : Trip) (current_date : date) :
  0 < estimated_drive_time_hours trip ->
  0 <= current_cycle_used_hours trip ->
  current_cycle_used_hours trip < 70 ->
  let allowance :=
    Qmin 11 (Double.sub 70 (current_cycle_used_hours trip)) in
  let days :=
    Qceiling (Double.round (estimated_drive_time_hours trip / allowance)) in
  (Double.representable (current_cycle_used_hours trip) ->
   ~ total_distance_miles trip == 0 ->
   (Z.of_nat (length (route_coordinates trip)) - 1 <= 2 ^ 53)%Z ->
   (1 <= current_date <= Machine.date_max)%Z ->
   (current_date + days - 1 <= Machine.date_max)%Z ->
   exists plan,
     Machine.ELDComplianceService.generate_compliance_plan trip current_date
     = Ret plan)
  /\ (forall plan,
        Machine.ELDComplianceService.generate_compliance_plan
          trip current_date = Ret plan ->
        total_days plan = days
        /\ days_required (compliance_summary plan) = days)
  /\ (current_cycle_used_hours trip == 65 ->
      estimated_drive_time_hours trip == 20 ->
      allowance == 5 /\ days = 4%Z).
Proof.
  intros Ht H0 H70 allowance days. split; [|split].
  - intros Hdouble Hm Hsize Htoday Hlast.
    pose proof (machine_allowance_positive trip Hdouble H70) as Hleft.
    apply machine_plan_returns; try assumption.
    + lra.
    + unfold allowance in *. lra.
  - intros plan Hplan.
    apply machine_plan_inv in Hplan as (_ & Hdays & Hreq & _).
    rewrite Hreq, Hdays. split; reflexivity.
  - intros Hused Htotal.
    assert (Double.sub 70 (current_cycle_used_hours trip) == 5) as Hleft.
    { unfold Double.sub.
      rewrite (round_comp _ (inject_Z 5)) by (rewrite Hused; reflexivity).
      apply round_Z. vm_compute. discriminate. }
    assert (allowance == 5) as Havail.
    { unfold allowance. elim_minmax. lra. }
    split; [exact Havail|].
    unfold days.
    rewrite (Qceiling_comp _ (inject_Z 4)); [apply Qceiling_Z|].
    rewrite (round_comp _ (inject_Z 4))
      by (rewrite Htotal, Havail; reflexivity).
    apply round_Z. vm_compute. discriminate.
Qed.

Lemma days_required_first_day_allowance_scenario_b :
  exists plan,
    Machine.ELDComplianceService.generate_compliance_plan
      Scenario.scenario_b Scenario.today = Ret plan
    /\ total_days plan = 4%Z
    /\ days_required (compliance_summary plan) = 4%Z.
Proof.
  destruct (days_required_first_day_allowance
              Scenario.scenario_b Scenario.today)
    as (Hreturns & Hdays & Hfour); [reflexivity|discriminate|reflexivity|].
  destruct Hreturns as [plan Hplan];
    [vm_compute; reflexivity|discriminate|vm_compute; discriminate
    |vm_compute; split; discriminate|vm_compute; discriminate|].
  exists plan. split; [exact Hplan|].
  destruct (Hfour ltac:(reflexivity) ltac:(reflexivity)) as [_ Hfour'].
  destruct (Hdays plan Hplan) as [Htotal Hreq].
  rewrite Htotal, Hreq. split; exact Hfour'.
Defined.

(** The rounding is seen in the day count.  With 98.1 hours to drive and
    59.1 hours used, both as doubles, the hours left round to
    10.899999999999999 and the quotient rounds to 9, so the plan has 9
    days; the quotient of the same two doubles, not rounded, lies above 9. *)
Lemma long_haul_days :
  (exists plan,
     Machine.ELDComplianceService.generate_compliance_plan
       Scenario.long_haul Scenario.today = Ret plan
     /\ total_days plan = 9%Z)
  /\ Qceiling
       (estimated_drive_time_hours Scenario.long_haul
        / Qmin 11 (70 - current_cycle_used_hours Scenario.long_haul))
     = 10%Z.
Proof.
  split; [|vm_compute; reflexivity].
  destruct (Machine.ELDComplianceService.generate_compliance_plan
              Scenario.long_haul Scenario.today) as [plan|e] eqn:Hplan.
  - exists plan. split; [reflexivity|].
    apply machine_plan_inv in Hplan as (_ & -> & _).
    vm_compute. reflexivity.
  - exfalso.
    destruct (machine_plan_returns Scenario.long_haul Scenario.today)
      as [plan Hplan'];
      [vm_compute; discriminate|vm_compute; discriminate
      |vm_compute; discriminate|vm_compute; discriminate
      |vm_compute; split; discriminate|vm_compute; discriminate|].
    congruence.
Qed.





(** C4.  With [cycle_used_hours = 70] the first day's allowance is
    [min(11, 70 - 70) = 0], and [generate_compliance_plan] returns no plan:
    the division that computes [days_required] raises [ZeroDivisionError],
    whatever the hours to drive. *)
Theorem exhausted_cycle_division_error (trip : Trip) (current_date : date) :
  current_cycle_used_hours trip == 70 ->
  available_drive_hours trip == 0
  /\ generate_compliance_plan trip current_date = Raise ZeroDivisionError.
Proof.
  intros Hused.
  assert (available_drive_hours trip == 0) as Hzero.
  { unfold available_drive_hours, MAX_DRIVING_HOURS_DAILY, MAX_CYCLE_HOURS.
    elim_minmax. lra. }
  split; [exact Hzero|].
  unfold generate_compliance_plan.
  now rewrite (py_div_zero _ _ Hzero).
Qed.

Lemma exhausted_cycle_division_error_scenario_e :
  estimated_drive_time_hours Scenario.scenario_e == 5
  /\ generate_compliance_plan Scenario.scenario_e Scenario.today
     = Raise ZeroDivisionError.
Proof.
  split; [reflexivity|].
  apply (exhausted_cycle_division_error Scenario.scenario_e Scenario.today).
  reflexivity.
Defined.

(** C5.  The plan for 65 cycle hours used and 20 hours to drive has four
    days, and the hours are driven by the end of the third: the fourth day
    gets a Driving entry of zero hours, an entry that [ELDLog.create] rejects
    with "Duration must be positive". *)
Theorem scenario_b_zero_hour_driving_entry :
  let entry :=
    mk_LogData (Scenario.today + 3)%Z "driving" (time_hm 10 0) 0
               "Driving to destination" in
  exists plan,
    generate_compliance_plan Scenario.scenario_b Scenario.today = Ret plan
    /\ total_days plan = 4%Z
    /\ last (eld_logs plan) = Some entry
    /\ ~ 0 < duration_hours entry
    /\ forall (objects : ELDLog.table) (trip_pk driver_pk : Z),
         ELDLog.create objects trip_pk driver_pk entry
         = Raise (ValidationError "Duration must be positive").
Proof.
  intros entry. eexists. split; [vm_compute; reflexivity|].
  split; [reflexivity|]. split; [reflexivity|].
  split; [intros H; discriminate H|].
  intros objects trip_pk driver_pk. reflexivity.
Qed.

(** ** The order of the rest stops *)

Section StopOrder.

Lemma is_ascending_complete (stops : list RestStopData) :
  ascending_by_distance stops -> is_ascending stops = true.
Proof.
  induction 1 as [|stop rest Hsorted IH Hall]; [reflexivity|].
  destruct rest as [|next rest]; [reflexivity|].
  change (is_ascending (stop :: next :: rest))
    with (Qle_bool (distance_from_start_miles stop)
                   (distance_from_start_miles next)
          && is_ascending (next :: rest)).
  rewrite IH, andb_true_r.
  inversion Hall; subst. now apply Qle_bool_iff.
Qed.

Lemma insert_by_distance_perm (stop : RestStopData)
    (sorted : list RestStopData) :
  Permutation (stop :: sorted) (RestStop.insert_by_distance stop sorted).
Proof.
  induction sorted as [|head rest IH]; simpl; [reflexivity|].
  destruct (Qltb _ _); [reflexivity|].
  rewrite perm_swap. now constructor.
Qed.

Lemma insert_by_distance_ascending (stop : RestStopData)
    (sorted : list RestStopData) :
  ascending_by_distance sorted ->
  ascending_by_distance (RestStop.insert_by_distance stop sorted).
Proof.
  unfold ascending_by_distance.
  induction 1 as [|head rest Hsorted IH Hall]; simpl.
  - repeat constructor.
  - destruct (Qltb _ _) eqn:Hcmp.
    + apply Qltb_lt in Hcmp.
      constructor; [now constructor|].
      constructor; [lra|].
      eapply Forall_impl; [exact Hall|]. simpl. intros later Hlater. lra.
    + apply Qltb_ge in Hcmp.
      constructor; [exact IH|].
      eapply Permutation_Forall; [apply insert_by_distance_perm|].
      now constructor.
Qed.

Lemma all_from (stops : list RestStopData) :
  forall sorted : list RestStopData,
    ascending_by_distance sorted ->
    let result :=
      fold_left (fun acc stop => RestStop.insert_by_distance stop acc)
                stops sorted in
    ascending_by_distance result /\ Permutation (sorted ++ stops) result.
Proof.
  induction stops as [|stop stops IH]; intros sorted Hsorted; simpl.
  - rewrite app_nil_r. split; [exact Hsorted|reflexivity].
  - destruct (IH (RestStop.insert_by_distance stop sorted)
                (insert_by_distance_ascending stop sorted Hsorted))
      as [Hresult Hperm].
    split; [exact Hresult|].
    rewrite <- Hperm, <- insert_by_distance_perm. simpl.
    symmetry. apply Permutation_middle.
Qed.

Lemma all_ascending (stops : list RestStopData) :
  ascending_by_distance (RestStop.all stops)
  /\ Permutation stops (RestStop.all stops).
Proof.
  apply (all_from stops []). constructor.
Qed.

End StopOrder.

Section MandatoryStops.
Import ELDComplianceService.

Lemma mandatory_within_weaken (bound bound' : Q) (stops : list RestStopData) :
  mandatory_within bound stops -> bound <= bound' ->
  mandatory_within bound' stops.
Proof.
  intros [Hsorted Hbelow] Hle. split; [exact Hsorted|].
  eapply Forall_impl; [exact Hbelow|]. simpl. intros stop Hstop. lra.
Qed.

Lemma ascending_snoc (stops : list RestStopData) (stop : RestStopData) :
  ascending_by_distance stops ->
  Forall (fun earlier =>
            distance_from_start_miles earlier
            <= distance_from_start_miles stop) stops ->
  ascending_by_distance (stops ++ [stop]).
Proof.
  unfold ascending_by_distance.
  induction 1 as [|head rest Hsorted IH Hall]; intros Hbelow; simpl.
  - repeat constructor.
  - inversion Hbelow; subst.
    constructor; [now apply IH|].
    apply Forall_app. split; [exact Hall|]. now repeat constructor.
Qed.

Lemma mandatory_within_push (bound : Q) (stops : list RestStopData)
    (stop : RestStopData) :
  mandatory_within bound stops ->
  is_mandatory stop = true ->
  bound <= distance_from_start_miles stop ->
  mandatory_within (distance_from_start_miles stop) (stops ++ [stop]).
Proof.
  intros [Hsorted Hbelow] Hmandatory Hle.
  unfold mandatory_within, mandatory_stops.
  rewrite List.filter_app. simpl. rewrite Hmandatory.
  assert (Forall (fun earlier =>
                    distance_from_start_miles earlier
                    <= distance_from_start_miles stop)
                 (mandatory_stops stops)) as Hearlier.
  { eapply Forall_impl; [exact Hbelow|]. simpl. intros e He. lra. }
  split.
  - now apply ascending_snoc.
  - apply Forall_app. split; [exact Hearlier|].
    repeat constructor. lra.
Qed.

Lemma mandatory_within_skip (bound : Q) (stops : list RestStopData)
    (stop : RestStopData) :
  mandatory_within bound stops ->
  is_mandatory stop = false ->
  mandatory_within bound (stops ++ [stop]).
Proof.
  intros Hwithin Hoptional.
  unfold mandatory_within, mandatory_stops.
  rewrite List.filter_app. simpl. rewrite Hoptional, app_nil_r.
  exact Hwithin.
Qed.

End MandatoryStops.

Section MandatoryOrder.
Import ELDComplianceService.

Variable trip : Trip.
Variable current_date : date.

Let total : Q := estimated_drive_time_hours trip.
Let miles : Q := total_distance_miles trip.

Hypothesis total_positive : 0 < total.
Hypothesis miles_nonneg : 0 <= miles.

Lemma daily_nonneg (day : Z) (remaining : Q) :
  0 <= remaining -> 0 <= daily_drive_hours trip day remaining.
Proof.
  unfold daily_drive_hours, MAX_DRIVING_HOURS_DAILY, MAX_CYCLE_HOURS.
  intros H. destruct (day =? 0)%Z; elim_minmax; lra.
Qed.

(** The miles that go with a share of the hours grow with the hours. *)
Lemma share_monotone (x y : Q) :
  x <= y -> x / total * miles <= y / total * miles.
Proof.
  intros Hxy.
  apply Qmult_le_compat_r; [|exact miles_nonneg].
  apply Qmult_le_compat_r; [exact Hxy|].
  apply Qlt_le_weak, Qinv_lt_0_compat, total_positive.
Qed.

Lemma plan_day_mandatory (day : Z) (st st' : loop_state) :
  0 <= remaining_drive_hours st ->
  mandatory_within (distance_covered st) (st_rest_stops st) ->
  plan_day trip current_date day st = Ret st' ->
  0 <= remaining_drive_hours st'
  /\ mandatory_within (distance_covered st') (st_rest_stops st').
Proof.
  intros Hrem Hwithin Hday.
  pose proof (daily_nonneg day _ Hrem) as Hdaily.
  pose proof (daily_at_most_remaining trip day (remaining_drive_hours st))
    as Hmost.
  unfold plan_day in Hday.
  set (daily := daily_drive_hours trip day (remaining_drive_hours st)) in *.
  fold total miles in Hday.
  apply py_bind_inv in Hday as (stops1 & Hbreak & Hday).
  apply py_bind_inv in Hday as (stops2 & Hfuel & Hday).
  apply py_bind_inv in Hday as (share & Hshare & Hday).
  apply py_bind_inv in Hday as (stops3 & Hrest & Hday).
  injection Hday as <-. simpl.
  split; [lra|].
  apply py_div_inv in Hshare as ->.
  pose proof (share_monotone 0 daily Hdaily) as Hahead.
  assert (0 / total * miles == 0) as Hzero
    by (field; intros Heq; rewrite Heq in total_positive; discriminate).
  assert (exists bound,
            bound <= distance_covered st + daily / total * miles
            /\ mandatory_within bound stops1) as (bound & Hbound & Hstops1).
  { destruct (Qltb 8 daily) eqn:Hlong.
    - apply Qltb_lt in Hlong.
      apply py_bind_inv in Hbreak as (part & Hpart & Hbreak).
      apply py_bind_inv in Hbreak as (progress & _ & Hbreak).
      injection Hbreak as <-. apply py_div_inv in Hpart as ->.
      pose proof (share_monotone 0 8 ltac:(lra)) as Height.
      pose proof (share_monotone 8 daily ltac:(lra)) as Hfurther.
      eexists. split; cycle 1.
      { apply (mandatory_within_push (distance_covered st));
          [exact Hwithin|reflexivity|simpl; lra]. }
      simpl. lra.
    - injection Hbreak as <-.
      exists (distance_covered st). split; [lra|exact Hwithin]. }
  assert (mandatory_within bound stops2) as Hstops2.
  { destruct (_ && _).
    - apply py_bind_inv in Hfuel as (progress & _ & Hfuel).
      injection Hfuel as <-.
      now apply mandatory_within_skip.
    - now injection Hfuel as <-. }
  destruct (Qltb 0 (remaining_drive_hours st - daily)).
  - apply py_bind_inv in Hrest as (progress & _ & Hrest).
    injection Hrest as <-.
    change (distance_covered st + daily / total * miles)
      with (distance_from_start_miles
              (mk_RestStopData "rest"
                 (_interpolate_location (route_coordinates trip) progress)
                 (combine (current_date + day)%Z (time_hm 22 0)) 10
                 (distance_covered st + daily / total * miles) true
                 ("Mandatory 10-hour rest before day "
                    +:+ pretty (day + 2)%Z))) at 1.
    apply (mandatory_within_push bound);
      [exact Hstops2|reflexivity|exact Hbound].
  - injection Hrest as <-.
    now apply (mandatory_within_weaken bound).
Qed.

Lemma plan_days_mandatory (count : nat) :
  forall (day : Z) (st st' : loop_state),
    0 <= remaining_drive_hours st ->
    mandatory_within (distance_covered st) (st_rest_stops st) ->
    plan_days trip current_date count day st = Ret st' ->
    mandatory_within (distance_covered st') (st_rest_stops st').
Proof.
  induction count as [|count IH]; intros day st st' Hrem Hwithin Hloop;
    simpl in Hloop.
  - now injection Hloop as <-.
  - apply py_bind_inv in Hloop as (mid & Hday & Hloop).
    destruct (plan_day_mandatory day st mid Hrem Hwithin Hday)
      as [Hrem' Hwithin'].
    exact (IH _ _ _ Hrem' Hwithin' Hloop).
Qed.

End MandatoryOrder.
(** What the planner itself guarantees about the order: over a distance that
    is not negative, the mandatory stops of a returned plan ascend. *)
Lemma generate_compliance_plan_mandatory (trip : Trip) (current_date : date)
    (plan : CompliancePlan) :
  0 < estimated_drive_time_hours trip ->
  0 <= total_distance_miles trip ->
  generate_compliance_plan trip current_date = Ret plan ->
  ascending_by_distance (mandatory_stops (rest_stops plan)).
Proof.
  intros Ht Hm Hplan. unfold generate_compliance_plan in Hplan.
  apply py_bind_inv in Hplan as (ratio & _ & Hplan).
  apply py_bind_inv in Hplan as (final & Hloop & Hplan).
  injection Hplan as <-. simpl.
  apply (plan_days_mandatory trip current_date Ht Hm) in Hloop.
  - apply Hloop.
  - simpl. lra.
  - split; constructor.
Qed.





(** * The claim about interpolation *)

Section Interpolation.

Variable route : list (Q * Q).
Hypothesis route_not_empty : route <> [].

Let top : Z := (Z.of_nat (length route) - 1)%Z.

Lemma top_nonneg : (0 <= top)%Z.
Proof.
  unfold top. destruct route; [contradiction|]. simpl length. lia.
Qed.

Lemma last_point_last : last route = Some (last_point route).
Proof.
  unfold last_point. clear top.
  induction route as [|point rest IH]; [contradiction|].
  destruct rest as [|next rest]; [reflexivity|].
  change (last (point :: next :: rest)) with (last (next :: rest)).
  change (List.last (point :: next :: rest) (0, 0))
    with (List.last (next :: rest) (0, 0)).
  now apply IH.
Qed.

Lemma point_at_lookup (index : Z) :
  (0 <= index <= top)%Z ->
  route !! Z.to_nat index = Some (point_at route index).
Proof.
  intros Hrange. unfold point_at. rewrite nth_lookup.
  destruct (lookup_lt_is_Some_2 route (Z.to_nat index)) as [point ->];
    [unfold top in Hrange; lia|reflexivity].
Qed.

Lemma scaled_range (progress : Q) :
  0 <= progress -> progress <= 1 ->
  0 <= progress * inject_Z top /\ progress * inject_Z top <= inject_Z top.
Proof.
  intros H0 H1.
  assert (0 <= inject_Z top) as Htop.
  { change 0 with (inject_Z 0). rewrite <- Zle_Qle. apply top_nonneg. }
  split; [now apply Qmult_le_0_compat|].
  rewrite <- (Qmult_1_l (inject_Z top)) at 2.
  now apply Qmult_le_compat_r.
Qed.

Lemma interpolate_index_range (progress : Q) :
  (0 <= interpolate_index route progress <= top)%Z.
Proof.
  pose proof top_nonneg as Htop.
  unfold interpolate_index. fold top.
  destruct (Qle_bool progress 0) eqn:Hlow; [lia|].
  destruct (Qle_bool 1 progress) eqn:Hhigh; [lia|].
  apply Qle_bool_gt in Hlow, Hhigh.
  destruct (scaled_range progress) as [Hge Hle]; [lra|lra|].
  rewrite py_int_floor by exact Hge.
  apply (Qfloor_resp_le (inject_Z 0)) in Hge.
  apply Qfloor_resp_le in Hle.
  rewrite Qfloor_Z in Hge, Hle. lia.
Qed.

Lemma interpolate_index_monotone (p q : Q) :
  p <= q ->
  (interpolate_index route p <= interpolate_index route q)%Z.
Proof.
  intros Hpq.
  pose proof (interpolate_index_range p) as Hp.
  pose proof (interpolate_index_range q) as Hq.
  revert Hp Hq. unfold interpolate_index. fold top.
  destruct (Qle_bool p 0) eqn:Hp0; [lia|].
  apply Qle_bool_gt in Hp0.
  destruct (Qle_bool q 0) eqn:Hq0;
    [apply Qle_bool_iff in Hq0; lra|].
  destruct (Qle_bool 1 q) eqn:Hq1; [destruct (Qle_bool 1 p); lia|].
  apply Qle_bool_gt in Hq1.
  destruct (Qle_bool 1 p) eqn:Hp1; [apply Qle_bool_iff in Hp1; lra|].
  intros _ _.
  destruct (scaled_range p) as [Hpge _]; [lra|lra|].
  destruct (scaled_range q) as [Hqge _]; [lra|lra|].
  rewrite !py_int_floor by assumption.
  apply Qfloor_resp_le, Qmult_le_compat_r; [exact Hpq|].
  change 0 with (inject_Z 0). rewrite <- Zle_Qle. apply top_nonneg.
Qed.

(** On a route that is not empty, the three cases of
    [_interpolate_location]. *)
Lemma interpolate_cases (progress : Q) :
  _interpolate_location route progress =
    if Qle_bool progress 0 then
      mk_Location (fst (point_at route 0)) (snd (point_at route 0))
                  "Route location"
    else if Qle_bool 1 progress then
      mk_Location (fst (last_point route)) (snd (last_point route))
                  "Route location"
    else
      let coord := point_at route (py_int (progress * inject_Z top)) in
      mk_Location (fst coord) (snd coord)
                  ("Mile marker " +:+ pretty (py_int (progress * 1000))).
Proof.
  unfold _interpolate_location, top.
  destruct route; [contradiction|reflexivity].
Qed.

(** The point returned is the one at [interpolate_index]. *)
Lemma interpolate_at_index (progress : Q) :
  exists point,
    route !! Z.to_nat (interpolate_index route progress) = Some point
    /\ lat (_interpolate_location route progress) = fst point
    /\ lng (_interpolate_location route progress) = snd point.
Proof.
  pose proof top_nonneg as Htop.
  pose proof (interpolate_index_range progress) as Hrange.
  pose proof (point_at_lookup _ Hrange) as Hpoint.
  revert Hrange Hpoint.
  rewrite interpolate_cases. unfold interpolate_index. fold top.
  destruct (Qle_bool progress 0).
  - intros _ Hpoint. eexists. split; [exact Hpoint|]. split; reflexivity.
  - destruct (Qle_bool 1 progress).
    + intros _ _. exists (last_point route).
      split; [|split; reflexivity].
      rewrite <- last_point_last, last_lookup.
      f_equal. unfold top. lia.
    + intros _ Hpoint. eexists. split; [exact Hpoint|].
      split; reflexivity.
Qed.

End Interpolation.

(** C8.  On a polyline [P] that is not empty, [_interpolate_location]
    returns [P[0]] for every [progress <= 0] and [P[last]] for every
    [progress >= 1], both labelled "Route location"; for [0 < progress < 1]
    it returns [P[floor(progress * (|P| - 1))]] labelled "Mile marker" with
    [floor(progress * 1000)], each product being the float product, rounded
    to the nearest double; the subscript is within the list, and the index
    of the point returned does not decrease as [progress] grows.  The bound
    on the length, which every list meets, makes [|P| - 1] a double. *)
Theorem interpolate_location_points (route : list (Q * Q)) :
  route <> [] ->
  (Z.of_nat (length route) - 1 <= 2 ^ 53)%Z ->
  let interpolate :=
    Machine.ELDComplianceService._interpolate_location route in
  let index := Machine.ELDComplianceService.interpolate_index route in
  let top := (Z.of_nat (length route) - 1)%Z in
  Double.of_int top == inject_Z top
  /\ (forall progress, progress <= 0 ->
        exists point,
          route !! 0%nat = Some point
          /\ interpolate progress
             = Ret (mk_Location (fst point) (snd point) "Route location"))
  /\ (forall progress, 1 <= progress ->
        exists point,
          last route = Some point
          /\ interpolate progress
             = Ret (mk_Location (fst point) (snd point) "Route location"))
  /\ (forall progress, 0 < progress -> progress < 1 ->
        exists point,
          route !! Z.to_nat
            (Qfloor (Double.mul progress (Double.of_int top)))
          = Some point
          /\ interpolate progress
             = Ret (mk_Location (fst point) (snd point)
                      ("Mile marker "
                         +:+ pretty (Qfloor (Double.mul progress 1000)))))
  /\ (forall progress,
        exists point place,
          route !! Z.to_nat (index progress) = Some point
          /\ interpolate progress = Ret place
          /\ lat place = fst point
          /\ lng place = snd point)
  /\ (forall p q, p <= q -> (index p <= index q)%Z).
Proof.
  intros Hroute Hsize interpolate index top.
  assert (0 <= top)%Z as Htop
    by (unfold top; destruct route; [contradiction|simpl length; lia]).
  split; [apply of_int_exact; unfold top in *; lia|].
  split; [|split; [|split; [|split]]].
  - intros progress Hlow.
    destruct (machine_interpolate_at_index route Hsize progress Hroute)
      as (point & Hpoint & Hplace).
    revert Hpoint Hplace.
    unfold Machine.ELDComplianceService.interpolate_index.
    apply Qle_bool_iff in Hlow. rewrite Hlow. cbn [orb].
    intros Hpoint Hplace. exists point. split; assumption.
  - intros progress Hhigh.
    destruct (machine_interpolate_at_index route Hsize progress Hroute)
      as (point & Hpoint & Hplace).
    revert Hpoint Hplace.
    unfold Machine.ELDComplianceService.interpolate_index.
    assert (Qle_bool progress 0 = false) as ->
      by (apply Qle_bool_gt; lra).
    apply Qle_bool_iff in Hhigh. rewrite Hhigh. cbn [orb].
    intros Hpoint Hplace. exists point. split; [|exact Hplace].
    rewrite last_lookup, <- Hpoint. f_equal. lia.
  - intros progress Hlow Hhigh.
    destruct (machine_interpolate_at_index route Hsize progress Hroute)
      as (point & Hpoint & Hplace).
    revert Hpoint Hplace.
    unfold Machine.ELDComplianceService.interpolate_index.
    assert (Qle_bool progress 0 = false) as ->
      by (apply Qle_bool_gt; lra).
    assert (Qle_bool 1 progress = false) as ->
      by (apply Qle_bool_gt; lra).
    cbn [orb]. fold top.
    destruct (machine_scaled_range route Hsize progress Hroute)
      as [Hge _]; [lra|lra|].
    fold top in Hge. rewrite (py_int_floor _ Hge).
    assert (0 <= Double.mul progress 1000) as Hlabel
      by (apply round_nonneg; lra).
    rewrite (py_int_floor _ Hlabel).
    intros Hpoint Hplace. exists point. split; assumption.
  - intros progress.
    destruct (machine_interpolate_at_index route Hsize progress Hroute)
      as (point & Hpoint & Hplace).
    exists point. eexists. split; [exact Hpoint|].
    split; [exact Hplace|]. split; reflexivity.
  - intros p q. now apply machine_index_monotone.
Qed.

Lemma interpolate_location_points_six_points :
  Machine.ELDComplianceService._interpolate_location
    Scenario.six_points (Double.round (6 # 10))
  = Ret (mk_Location 43 (-95) "Mile marker 600")
  /\ (Machine.ELDComplianceService.interpolate_index
        Scenario.six_points (1 # 4)
      <= Machine.ELDComplianceService.interpolate_index
           Scenario.six_points (1 # 2))%Z.
Proof.
  destruct (interpolate_location_points Scenario.six_points)
    as (_ & _ & _ & Hmid & _ & Hmono);
    [discriminate|vm_compute; discriminate|].
  split.
  - destruct (Hmid (Double.round (6 # 10))) as (point & Hpoint & ->);
      [vm_compute; reflexivity|vm_compute; reflexivity|].
    vm_compute in Hpoint. injection Hpoint as <-.
    vm_compute. reflexivity.
  - apply Hmono. discriminate.
Defined.

(** The rounding is seen in the point returned.  The double nearest to 0.6
    is below 0.6, and five times that double rounds to 3: on six points the
    code returns the fourth, where the floor of the product not rounded is
    2.  Likewise the label of the double nearest to 0.009 is 9, not 8. *)
Lemma rounded_progress_points :
  Machine.ELDComplianceService.interpolate_index
    Scenario.six_points (Double.round (6 # 10)) = 3%Z
  /\ Qfloor (Double.round (6 # 10) * 5) = 2%Z
  /\ py_int (Double.mul (Double.round (9 # 1000)) 1000) = 9%Z
  /\ Qfloor (Double.round (9 # 1000) * 1000) = 8%Z.
Proof.
  repeat split; vm_compute; reflexivity.
Qed.

(** * The claim about route estimation *)

Section RouteEstimation.
Import RouteCalculatorService.

Variable geodesic_miles : Q * Q -> Q * Q -> Q.

(** Whatever makes the [try] block fail leads to the fallback. *)
Lemma calculate_route_fallback (outcome : directions_outcome)
    (current pickup dropoff : Coordinate) :
  primary_route outcome = None ->
  calculate_route geodesic_miles outcome current pickup dropoff
  = _calculate_fallback_route geodesic_miles current pickup dropoff.
Proof.
  intros Hnone. unfold calculate_route. now rewrite Hnone.
Qed.

Lemma primary_route_missing_features (data : json) :
  subscript_key data "features" = None ->
  primary_route (DirectionsReturned true (Some data)) = None.
Proof.
  intros Hmissing. simpl. now rewrite Hmissing.
Qed.

End RouteEstimation.




(** * The claims about the views *)

Section LogTable.

Lemma sum_duration_ext (keep keep' : ELDLog.row -> bool)
    (objects : ELDLog.table) :
  (forall r, keep r = keep' r) ->
  ELDLog.sum_duration keep objects = ELDLog.sum_duration keep' objects.
Proof.
  intros Hsame.
  induction objects as [|r rest IH]; simpl; [reflexivity|].
  now rewrite Hsame, IH.
Qed.

(** [clean] looks at the duration first. *)
Lemma clean_rejects_duration (objects : ELDLog.table) (self : ELDLog.row) :
  ELDLog.duration_hours self <= 0 ->
  ELDLog.clean objects self
  = Raise (ValidationError "Duration must be positive").
Proof.
  intros Hle. unfold ELDLog.clean.
  apply Qle_bool_iff in Hle. now rewrite Hle.
Qed.

Lemma save_rejects_duration (objects : ELDLog.table) (self : ELDLog.row) :
  ELDLog.duration_hours self <= 0 ->
  ELDLog.save objects self
  = Raise (ValidationError "Duration must be positive").
Proof.
  intros Hle. unfold ELDLog.save.
  destruct (ELDLog.end_time self);
    [|destruct (Qeq_bool (ELDLog.duration_hours self) 0)];
    now rewrite clean_rejects_duration.
Qed.

Lemma with_end_time_same (self : ELDLog.row) :
  ELDLog.with_end_time self (ELDLog.end_time self) = self.
Proof.
  now destruct self.
Qed.

(** A Driving entry that takes the driver's day past eleven hours. *)
Lemma save_rejects_driving_limit (objects : ELDLog.table)
    (self : ELDLog.row) :
  ELDLog.pk self = None ->
  0 < ELDLog.duration_hours self ->
  ELDLog.duty_status self = "driving" ->
  11 < ELDLog.sum_duration (ELDLog.same_day_driving self) objects
       + ELDLog.duration_hours self ->
  ELDLog.save objects self
  = Raise (ValidationError "Daily driving limit of 11 hours exceeded").
Proof.
  intros Hpk Hpos Hduty Hover.
  assert (forall ending,
            ELDLog.clean objects (ELDLog.with_end_time self ending)
            = Raise (ValidationError
                       "Daily driving limit of 11 hours exceeded"))
    as Hclean.
  { intros ending. unfold ELDLog.clean. simpl.
    assert (Qle_bool (ELDLog.duration_hours self) 0 = false) as ->
      by (apply Qle_bool_gt; exact Hpos).
    rewrite Hduty. simpl.
    rewrite (sum_duration_ext _ (ELDLog.same_day_driving self)).
    - apply Qltb_lt in Hover. now rewrite Hover.
    - intros r. unfold ELDLog.pk_is. simpl. rewrite Hpk.
      unfold ELDLog.same_day_driving. simpl. now rewrite andb_true_r. }
  pose proof (Hclean (ELDLog.end_time self)) as Hself.
  rewrite with_end_time_same in Hself.
  unfold ELDLog.save.
  destruct (ELDLog.end_time self);
    [|destruct (Qeq_bool (ELDLog.duration_hours self) 0)];
    now rewrite ?Hself, ?Hclean.
Qed.

End LogTable.

(** ** Saving a row on the calendar *)

Section MachineSave.

Lemma microseconds_of_hours (hours : Q) :
  - (24) <= hours -> hours <= 24 ->
  (- 86400000000
   <= ELDLog.round_half_even (hours * 3600000000) <= 86400000000)%Z.
Proof.
  intros Hlow Hhigh.
  pose proof (round_half_even_le (inject_Z (- 86400000000))
                (hours * 3600000000)) as Hbelow.
  pose proof (round_half_even_le (hours * 3600000000)
                (inject_Z 86400000000)) as Habove.
  rewrite round_half_even_Z in Hbelow, Habove.
  split; [apply Hbelow|apply Habove].
  - change (inject_Z (- 86400000000)) with (- (86400000000 # 1)). lra.
  - change (inject_Z 86400000000) with (86400000000 # 1). lra.
Qed.

Lemma derived_end_time_on_calendar (self : ELDLog.row) :
  within_calendar (ELDLog.log_date self) (ELDLog.start_time self)
    (ELDLog.duration_hours self) ->
  Machine.ELDLog.derived_end_time self
  = Ret (ELDLog.derived_end_time self).
Proof.
  intros (Hstart & Hlow & Hhigh & Hday).
  pose proof (microseconds_of_hours _ Hlow Hhigh) as Hdelta.
  unfold Machine.ELDLog.derived_end_time, Machine.ELDLog.timedelta_hours,
    Machine.ELDLog.datetime_add, ELDLog.derived_end_time,
    Machine.timedelta_max_days, Machine.date_max,
    ELDLog.microseconds_per_day.
  set (delta := ELDLog.round_half_even
                  (ELDLog.duration_hours self * 3600000000)) in *.
  assert (0 <= ELDLog.time_to_microseconds (ELDLog.start_time self)
          < 86400000000)%Z as Hbegin.
  { unfold valid_time in Hstart. unfold ELDLog.time_to_microseconds. lia. }
  set (begin := ELDLog.time_to_microseconds (ELDLog.start_time self)) in *.
  assert (- 1 <= delta / 86400000000 <= 1)%Z as Hdays
    by (Z.to_euclidean_division_equations; lia).
  assert (- 1 <= (begin + delta) / 86400000000 <= 1)%Z as Hshift
    by (Z.to_euclidean_division_equations; lia).
  assert ((999999999 <? Z.abs (delta / 86400000000))%Z = false) as ->
    by (apply Z.ltb_ge; lia).
  cbn [py_bind].
  assert ((1 <=? ELDLog.log_date self + (begin + delta) / 86400000000)%Z
          = true) as -> by (apply Z.leb_le; lia).
  assert ((ELDLog.log_date self + (begin + delta) / 86400000000
           <=? 3652059)%Z = true) as -> by (apply Z.leb_le; lia).
  cbn [andb py_bind fst snd].
  destruct ((begin + delta) / 86400000000 =? 0)%Z eqn:Hsame.
  - apply Z.eqb_eq in Hsame. rewrite Hsame, Z.add_0_r, Z.eqb_refl.
    reflexivity.
  - apply Z.eqb_neq in Hsame.
    assert ((ELDLog.log_date self + (begin + delta) / 86400000000
             =? ELDLog.log_date self)%Z = false) as ->
      by (apply Z.eqb_neq; lia).
    reflexivity.
Qed.

(** On the calendar, [save] is the [save] of the rows without bounds. *)
Lemma save_on_calendar (objects : ELDLog.table) (self : ELDLog.row) :
  end_on_calendar self ->
  Machine.ELDLog.save objects self = ELDLog.save objects self.
Proof.
  intros Hcalendar. unfold Machine.ELDLog.save, ELDLog.save.
  destruct (ELDLog.end_time self) as [given|] eqn:Hend; [reflexivity|].
  destruct (Qeq_bool (ELDLog.duration_hours self) 0); [reflexivity|].
  destruct Hcalendar as [Hgiven|Hwithin]; [congruence|].
  rewrite (derived_end_time_on_calendar self Hwithin). reflexivity.
Qed.

(** Whatever the calendar, a row that [save] stores is one that [clean]
    accepted. *)
Lemma machine_save_inv (objects objects' : ELDLog.table)
    (self : ELDLog.row) :
  Machine.ELDLog.save objects self = Ret objects' ->
  exists ending,
    ELDLog.clean objects (ELDLog.with_end_time self ending) = Ret tt
    /\ objects' = ELDLog.store objects (ELDLog.with_end_time self ending).
Proof.
  unfold Machine.ELDLog.save. intros Hsave.
  apply py_bind_inv in Hsave as (self' & Hself & Hsave).
  apply py_bind_inv in Hsave as ([] & Hclean & Hstore).
  injection Hstore as <-.
  assert (exists ending, self' = ELDLog.with_end_time self ending)
    as [ending ->].
  { destruct (ELDLog.end_time self) as [given|] eqn:Hend.
    - injection Hself as <-. exists (Some given).
      rewrite <- Hend. symmetry. apply with_end_time_same.
    - destruct (Qeq_bool (ELDLog.duration_hours self) 0).
      + injection Hself as <-. exists None.
        rewrite <- Hend. symmetry. apply with_end_time_same.
      + apply py_bind_inv in Hself as (ending & _ & Hself).
        injection Hself as <-. eexists; reflexivity. }
  exists ending. split; [exact Hclean|reflexivity].
Qed.

End MachineSave.


(** C9.  [start_trip] checks no transition: whatever the status of the trip,
    [completed] and [cancelled] included, it sets the status to [active],
    overwrites [trip_start_time] with the current time and reports success.
    [end_trip] refuses only a cancelled trip and [cancel_trip] only a
    completed one. *)
Theorem start_trip_unconditional
    (now : datetime) (pk : Z) (db : TripViewSet.Database) (trip : Trip) :
  TripViewSet.trips db !! pk = Some trip ->
  (exists started,
     TripViewSet.start_trip now pk db
     = (TripViewSet.save_trip db pk started,
        Ret (TripViewSet.mk_Response 200 "status"
               "Trip started successfully"))
     /\ TripViewSet.trips (fst (TripViewSet.start_trip now pk db)) !! pk
        = Some started
     /\ status started = "active"
     /\ trip_start_time started = Some now
     /\ trip_end_time started = trip_end_time trip)
  /\ (status trip = "cancelled" ->
      TripViewSet.end_trip now pk db
      = (db, Ret (TripViewSet.mk_Response 403 "status"
                    "Cannot complete a cancelled trip")))
  /\ (status trip <> "cancelled" ->
      TripViewSet.end_trip now pk db
      = (TripViewSet.save_trip db pk
           (TripViewSet.set_ended trip "completed" now),
         Ret (TripViewSet.mk_Response 200 "status"
                "Trip started successfully")))
  /\ (status trip = "completed" ->
      TripViewSet.cancel_trip now pk db
      = (db, Ret (TripViewSet.mk_Response 403 "status"
                    "Cannot cancel trip")))
  /\ (status trip <> "completed" ->
      TripViewSet.cancel_trip now pk db
      = (TripViewSet.save_trip db pk
           (TripViewSet.set_ended trip "cancelled" now),
         Ret (TripViewSet.mk_Response 200 "status"
                "Trip cancelled successfully"))).
Proof.
  intros Hfound.
  unfold TripViewSet.start_trip, TripViewSet.end_trip,
    TripViewSet.cancel_trip, TripViewSet.get_object.
  rewrite Hfound.
  split.
  { exists (TripViewSet.set_started trip now).
    split; [reflexivity|]. simpl. rewrite lookup_insert_eq.
    repeat split. }
  repeat split.
  - intros ->. reflexivity.
  - intros Hother. apply String.eqb_neq in Hother. now rewrite Hother.
  - intros ->. reflexivity.
  - intros Hother. apply String.eqb_neq in Hother. now rewrite Hother.
Qed.

Lemma start_trip_unconditional_completed_trip :
  exists started,
    TripViewSet.start_trip Scenario.now 7 Scenario.one_trip
    = (TripViewSet.save_trip Scenario.one_trip 7 started,
       Ret (TripViewSet.mk_Response 200 "status" "Trip started successfully"))
    /\ status Scenario.completed_trip = "completed"
    /\ status started = "active"
    /\ trip_start_time started = Some Scenario.now.
Proof.
  destruct (start_trip_unconditional Scenario.now 7 Scenario.one_trip
              Scenario.completed_trip)
    as ((started & Hresult & _ & Hstatus & Hstart & _) & _);
    [reflexivity|].
  exists started. repeat split; assumption.
Defined.




(** An exception of the save that is not a validation error: the entry of
    a hundred million hours ends after the year 9999, the date arithmetic
    of [save] raises before [clean] is called, and [add_log] answers 400
    with the interpreter's message. *)
Lemma add_log_endless_shift :
  Machine.ELDLog.save [] Scenario.endless_shift
  = Raise (OverflowError "date value out of range")
  /\ Machine.TripViewSet.add_log Scenario.sample_validate
       Scenario.endless_payload 7 Scenario.one_trip
     = (Scenario.one_trip,
        TripViewSet.mk_Response 400 "error" "date value out of range").
Proof.
  split; vm_compute; reflexivity.
Qed.

(** * Further properties of the planner *)

Section PlannerEdges.

Variable trip : Trip.
Variable current_date : date.

Let total : Q := estimated_drive_time_hours trip.
Let used : Q := current_cycle_used_hours trip.
Let miles : Q := total_distance_miles trip.
Let first_day : Q := Qmin 11 (70 - used).

(** A ceiling is at least two exactly above one. *)
Lemma ceiling_at_least_two (x : Q) : (2 <= Qceiling x)%Z <-> 1 < x.
Proof.
  split; intros H.
  - pose proof (Qceiling_lt x) as Hlt.
    assert (inject_Z 1 <= inject_Z (Qceiling x - 1)) as Hone
      by (rewrite <- Zle_Qle; lia).
    change (inject_Z 1) with 1 in Hone. lra.
  - pose proof (Qle_ceiling x) as Hle.
    assert (inject_Z 1 < inject_Z (Qceiling x)) as Hone
      by (change (inject_Z 1) with 1; lra).
    rewrite <- Zlt_Qlt in Hone. lia.
Qed.

Lemma ceiling_at_least_one (x : Q) : 0 < x -> (1 <= Qceiling x)%Z.
Proof.
  intros H. pose proof (Qle_ceiling x) as Hle.
  assert (inject_Z 0 < inject_Z (Qceiling x)) as Hzero
    by (change (inject_Z 0) with 0; lra).
  rewrite <- Zlt_Qlt in Hzero. lia.
Qed.

Lemma ceiling_nonpositive (x : Q) : x <= 0 -> (Qceiling x <= 0)%Z.
Proof.
  intros H. apply (Qceiling_resp_le x (inject_Z 0)) in H.
  now rewrite Qceiling_Z in H.
Qed.

(** When the hours over the allowance are not positive the loop does not
    run, and the plan is empty. *)
Lemma generate_compliance_plan_no_days :
  ~ first_day == 0 -> total / first_day <= 0 ->
  generate_compliance_plan trip current_date
  = Ret (mk_CompliancePlan [] [] (Qceiling (total / first_day))
           (mk_ComplianceSummary total (total + 2)
              (Qceiling (total / first_day)) (used + (total + 2)))).
Proof.
  intros Hfirst Hratio.
  unfold generate_compliance_plan, available_drive_hours,
    MAX_DRIVING_HOURS_DAILY, MAX_CYCLE_HOURS.
  fold used. fold first_day. fold total.
  rewrite py_div_ok by exact Hfirst. simpl. unfold math_ceil.
  pose proof (ceiling_nonpositive _ Hratio) as Hdays.
  replace (Z.to_nat (Qceiling (total / first_day))) with 0%nat by lia.
  reflexivity.
Qed.

End PlannerEdges.






Section MachineStops.
Import Machine.ELDComplianceService.

Variable trip : Trip.
Variable current_date : date.

Let total : Q := estimated_drive_time_hours trip.
Let miles : Q := total_distance_miles trip.

Hypothesis total_positive : 0 < total.
Hypothesis miles_nonneg : 0 <= miles.

Let ahead (stop : RestStopData) : Prop :=
  0 <= distance_from_start_miles stop.

Let onward (st : ELDComplianceService.loop_state) : Prop :=
  0 <= ELDComplianceService.remaining_drive_hours st
  /\ 0 <= ELDComplianceService.distance_covered st.

Lemma machine_rest_stop_inv (kind : string) (at_time : datetime)
    (hours distance : Q) (mandatory : bool) (reason : string)
    (stop : RestStopData) :
  rest_stop trip kind at_time hours distance mandatory reason = Ret stop ->
  stop_type stop = kind /\ distance_from_start_miles stop = distance.
Proof.
  unfold rest_stop. intros Hstop.
  apply py_bind_inv in Hstop as (progress & _ & Hstop).
  apply py_bind_inv in Hstop as (place & _ & Hstop).
  injection Hstop as <-. split; reflexivity.
Qed.

(** The float share of the distance that some hours stand for. *)
Lemma machine_share_nonneg (hours : Q) :
  0 <= hours -> 0 <= Double.mul (Double.round (hours / total)) miles.
Proof.
  intros Hhours. apply round_nonneg.
  apply Qmult_le_0_compat; [|exact miles_nonneg].
  apply round_nonneg. apply Qle_shift_div_l; [exact total_positive|lra].
Qed.

Lemma machine_plan_day_ahead (day : Z)
    (st st' : ELDComplianceService.loop_state) :
  onward st -> Forall ahead (ELDComplianceService.st_rest_stops st) ->
  plan_day trip current_date day st = Ret st' ->
  onward st' /\ Forall ahead (ELDComplianceService.st_rest_stops st').
Proof.
  intros (Hrem & Hcovered) Hstops Hday.
  unfold plan_day in Hday.
  apply py_bind_inv in Hday as (day_date & _ & Hday).
  set (daily := daily_drive_hours trip day
                  (ELDComplianceService.remaining_drive_hours st)) in *.
  assert (0 <= daily
          /\ daily <= ELDComplianceService.remaining_drive_hours st)
    as [Hdaily Hmost].
  { unfold daily, daily_drive_hours.
    destruct (day =? 0)%Z; elim_minmax; split; lra. }
  fold total miles in Hday.
  apply py_bind_inv in Hday as (stops1 & Hbreak & Hday).
  apply py_bind_inv in Hday as (stops2 & Hfuel & Hday).
  apply py_bind_inv in Hday as (share & Hshare & Hday).
  apply py_bind_inv in Hday as (stops3 & Hrest & Hday).
  injection Hday as <-.
  rewrite double_div_ok in Hshare by lra. injection Hshare as <-.
  pose proof (machine_share_nonneg daily Hdaily) as Hgain.
  assert (0 <= Double.add (ELDComplianceService.distance_covered st)
                 (Double.mul (Double.round (daily / total)) miles))
    as Hcovered' by (apply round_nonneg; lra).
  split.
  { split; [apply round_nonneg; simpl; lra|exact Hcovered']. }
  cbn [ELDComplianceService.st_rest_stops].
  assert (Forall ahead stops1) as Hstops1.
  { destruct (Qltb 8 daily).
    - apply py_bind_inv in Hbreak as (part & Hpart & Hbreak).
      apply py_bind_inv in Hbreak as (stop & Hstop & Hbreak).
      injection Hbreak as <-.
      rewrite double_div_ok in Hpart by lra. injection Hpart as <-.
      apply machine_rest_stop_inv in Hstop as [_ Hdistance].
      apply Forall_app. split; [exact Hstops|].
      repeat constructor. unfold ahead. rewrite Hdistance.
      pose proof (machine_share_nonneg 8 ltac:(lra)).
      apply round_nonneg. lra.
    - now injection Hbreak as <-. }
  assert (Forall ahead stops2) as Hstops2.
  { destruct (_ && _).
    - apply py_bind_inv in Hfuel as (stop & Hstop & Hfuel).
      injection Hfuel as <-.
      apply machine_rest_stop_inv in Hstop as [_ Hdistance].
      apply Forall_app. split; [exact Hstops1|].
      repeat constructor. unfold ahead. now rewrite Hdistance.
    - now injection Hfuel as <-. }
  destruct (Qltb 0 (Double.sub
                      (ELDComplianceService.remaining_drive_hours st)
                      daily)).
  - apply py_bind_inv in Hrest as (stop & Hstop & Hrest).
    injection Hrest as <-.
    apply machine_rest_stop_inv in Hstop as [_ Hdistance].
    apply Forall_app. split; [exact Hstops2|].
    repeat constructor. unfold ahead. now rewrite Hdistance.
  - now injection Hrest as <-.
Qed.

Lemma machine_plan_days_ahead (count : nat) :
  forall (day : Z) (st st' : ELDComplianceService.loop_state),
    onward st -> Forall ahead (ELDComplianceService.st_rest_stops st) ->
    plan_days trip current_date count day st = Ret st' ->
    Forall ahead (ELDComplianceService.st_rest_stops st').
Proof.
  induction count as [|count IH]; intros day st st' Honward Hstops Hloop;
    simpl in Hloop.
  - now injection Hloop as <-.
  - apply py_bind_inv in Hloop as (mid & Hday & Hloop).
    destruct (machine_plan_day_ahead day st mid Honward Hstops Hday)
      as [Honward' Hstops'].
    exact (IH _ _ _ Honward' Hstops' Hloop).
Qed.

Lemma machine_plan_ahead (plan : CompliancePlan) :
  generate_compliance_plan trip current_date = Ret plan ->
  Forall ahead (rest_stops plan).
Proof.
  intros Hplan.
  apply machine_plan_inv in Hplan as (_ & _ & _ & final & Hloop & -> & _).
  apply machine_plan_days_ahead in Hloop; [exact Hloop| |constructor].
  split; simpl; [apply Qlt_le_weak, total_positive|lra].
Qed.

End MachineStops.

Section Chronology.

Variable trip : Trip.
Variable current_date : date.

Let ends_by_midnight (entry : LogData) : Prop :=
  inject_Z (ELDLog.time_to_microseconds (start_time entry))
  + duration_hours entry * 3600000000
  <= inject_Z ELDLog.microseconds_per_day.

Lemma daily_logs_dated (day : date) (hours : Q) (first : bool) :
  Forall (fun entry => log_date entry = day)
         (_generate_daily_logs day hours first).
Proof.
  unfold _generate_daily_logs.
  destruct first, (Qle_bool hours 8); repeat constructor.
Qed.

Lemma daily_logs_chronological (day : date) (hours : Q) (first : bool) :
  StronglySorted over_before (_generate_daily_logs day hours first).
Proof.
  unfold _generate_daily_logs.
  destruct first, (Qle_bool hours 8); simpl;
    repeat (constructor;
            try (right; split; [reflexivity|discriminate])).
Qed.

Lemma daily_logs_end (day : date) (hours : Q) (first : bool) :
  hours <= 11 ->
  Forall ends_by_midnight (_generate_daily_logs day hours first).
Proof.
  intros Hcap. unfold _generate_daily_logs, ends_by_midnight.
  destruct first, (Qle_bool hours 8) eqn:Hshort; simpl;
    try (apply Qle_bool_iff in Hshort);
    repeat (apply Forall_cons; split); try apply Forall_nil_2;
    repeat match goal with
    | |- context [inject_Z ?z] =>
        let v := eval vm_compute in (inject_Z z) in
        change (inject_Z z) with v
    end; cbn [duration_hours]; lra.
Qed.

Lemma logs_of_days_dates (count : nat) :
  forall (day : Z) (remaining : Q),
    Forall (fun entry =>
              (current_date + day <= log_date entry
               < current_date + day + Z.of_nat count)%Z)
           (Schedule.logs_of_days trip current_date count day remaining).
Proof.
  induction count as [|count IH]; intros day remaining; simpl.
  - constructor.
  - apply Forall_app. split.
    + eapply Forall_impl; [apply daily_logs_dated|].
      simpl. intros entry ->. lia.
    + eapply Forall_impl; [apply IH|].
      simpl. intros entry Hentry. lia.
Qed.

Lemma logs_of_days_chronological (count : nat) :
  forall (day : Z) (remaining : Q),
    StronglySorted over_before
      (Schedule.logs_of_days trip current_date count day remaining)
    /\ Forall ends_by_midnight
         (Schedule.logs_of_days trip current_date count day remaining).
Proof.
  induction count as [|count IH]; intros day remaining; simpl.
  - split; constructor.
  - destruct (IH (day + 1)%Z
                (remaining - daily_drive_hours trip day remaining))
      as [Hsorted Hend].
    split.
    + apply StronglySorted_app_2;
        [|apply daily_logs_chronological|exact Hsorted].
      intros earlier later Hearlier Hlater. left.
      pose proof (daily_logs_dated (current_date + day)%Z
                    (daily_drive_hours trip day remaining) (day =? 0)%Z)
        as Hdated.
      pose proof (logs_of_days_dates count (day + 1)%Z
                    (remaining - daily_drive_hours trip day remaining))
        as Hdates.
      rewrite Forall_forall in Hdated, Hdates.
      rewrite (Hdated _ Hearlier).
      specialize (Hdates _ Hlater). lia.
    + apply Forall_app. split; [|exact Hend].
      apply daily_logs_end, daily_at_most_cap.
Qed.

End Chronology.

(** X4.  In the plan as the interpreter computes it, no stop lies before the
    start of the route: for positive hours to drive and a distance that is
    not negative, every [distance_from_start_miles] is at least zero.  The
    end of the route is no bound.  On a thousand miles at 55 miles an hour
    with 65 cycle hours used, the shares of the four days add up, in
    floating point, to 1000.0000000000001 miles, and the last day places a
    fuel stop there, past the end of the route. *)
Theorem stops_not_before_start (trip : Trip) (current_date : date) :
  0 < estimated_drive_time_hours trip ->
  0 <= total_distance_miles trip ->
  forall plan,
    Machine.ELDComplianceService.generate_compliance_plan trip current_date
    = Ret plan ->
    Forall (fun stop => 0 <= distance_from_start_miles stop)
           (rest_stops plan).
Proof.
  intros Ht Hm plan Hplan.
  now apply (machine_plan_ahead trip current_date).
Qed.

Lemma stops_not_before_start_thousand_miles :
  exists plan stop,
    Machine.ELDComplianceService.generate_compliance_plan
      Scenario.thousand_miles Scenario.today = Ret plan
    /\ Forall (fun stop => 0 <= distance_from_start_miles stop)
              (rest_stops plan)
    /\ last (rest_stops plan) = Some stop
    /\ stop_type stop = "fuel"
    /\ distance_from_start_miles stop
       == 1000 + (1 # 8796093022208)
    /\ total_distance_miles Scenario.thousand_miles
       < distance_from_start_miles stop.
Proof.
  destruct (Machine.ELDComplianceService.generate_compliance_plan
              Scenario.thousand_miles Scenario.today)
    as [plan|e] eqn:Hplan; [|vm_compute in Hplan; discriminate Hplan].
  pose proof (stops_not_before_start Scenario.thousand_miles Scenario.today
                ltac:(vm_compute; reflexivity) ltac:(discriminate)
                plan Hplan) as Hahead.
  vm_compute in Hplan. injection Hplan as <-.
  eexists _, _. split; [reflexivity|]. split; [exact Hahead|].
  split; [reflexivity|]. split; [reflexivity|].
  split; vm_compute; reflexivity.
Defined.





(** * Further properties of the log table *)

Section StoringLogs.

Lemma sum_duration_app (keep : ELDLog.row -> bool)
    (xs ys : ELDLog.table) :
  ELDLog.sum_duration keep (xs ++ ys)
  == ELDLog.sum_duration keep xs + ELDLog.sum_duration keep ys.
Proof.
  induction xs as [|x xs IH]; simpl.
  - lra.
  - destruct (keep x); rewrite IH; lra.
Qed.

Lemma sum_hours_nonneg (keep : LogData -> bool) (entries : list LogData) :
  Forall (fun entry => 0 <= duration_hours entry) entries ->
  0 <= sum_hours keep entries.
Proof.
  induction 1 as [|entry rest Hentry _ IH]; simpl; [lra|].
  destruct (keep entry); lra.
Qed.

(** The row that [ELDLog.objects.create] builds from a log entry, before the
    database gives it a key. *)
Lemma create_is_save (objects : ELDLog.table) (trip_pk driver_pk : Z)
    (entry : LogData) :
  ELDLog.create objects trip_pk driver_pk entry
  = ELDLog.save objects
      (ELDLog.mk_row None (Some trip_pk) driver_pk (log_date entry)
         (duty_status entry) (start_time entry) None
         (duration_hours entry) (remarks entry)).
Proof.
  now destruct entry.
Qed.

Lemma create_rejects_duration (objects : ELDLog.table)
    (trip_pk driver_pk : Z) (entry : LogData) :
  duration_hours entry <= 0 ->
  ELDLog.create objects trip_pk driver_pk entry
  = Raise (ValidationError "Duration must be positive").
Proof.
  intros Hle. rewrite create_is_save. now apply save_rejects_duration.
Qed.

(** An entry of positive duration that keeps the driver's day within eleven
    hours of Driving is stored, as one more row. *)
Lemma create_accepts (objects : ELDLog.table) (trip_pk driver_pk : Z)
    (entry : LogData) :
  0 < duration_hours entry ->
  (is_driving entry = true ->
   driving_total driver_pk (log_date entry) objects + duration_hours entry
   <= 11) ->
  exists row,
    ELDLog.create objects trip_pk driver_pk entry = Ret (objects ++ [row])
    /\ ELDLog.driver row = driver_pk
    /\ ELDLog.log_date row = log_date entry
    /\ ELDLog.duty_status row = duty_status entry
    /\ ELDLog.duration_hours row = duration_hours entry.
Proof.
  intros Hpos Hlimit. rewrite create_is_save.
  unfold ELDLog.save. cbn [ELDLog.end_time ELDLog.duration_hours].
  assert (Qeq_bool (duration_hours entry) 0 = false) as ->.
  { destruct (Qeq_bool _ 0) eqn:E; [|reflexivity].
    apply Qeq_bool_iff in E. lra. }
  unfold ELDLog.clean, ELDLog.with_end_time.
  cbn [ELDLog.duration_hours ELDLog.duty_status ELDLog.pk ELDLog.trip
       ELDLog.driver ELDLog.log_date ELDLog.start_time ELDLog.remarks].
  assert (Qle_bool (duration_hours entry) 0 = false) as ->
    by (apply Qle_bool_gt; exact Hpos).
  fold (is_driving entry).
  destruct (is_driving entry) eqn:Hdriving.
  - rewrite (sum_duration_ext _
               (fun r => (ELDLog.driver r =? driver_pk)%Z
                         && (ELDLog.log_date r =? log_date entry)%Z
                         && String.eqb (ELDLog.duty_status r) "driving")).
    + fold (driving_total driver_pk (log_date entry) objects).
      assert (Qltb 11 (driving_total driver_pk (log_date entry) objects
                       + duration_hours entry) = false) as ->
        by (apply Qltb_ge; now apply Hlimit).
      simpl. eexists. split; [reflexivity|]. repeat split.
    + intros r. unfold ELDLog.same_day_driving, ELDLog.pk_is. simpl.
      now rewrite andb_true_r.
  - simpl. eexists. split; [reflexivity|]. repeat split.
Qed.

(** The Driving hours of one driver on one date, after a row is added. *)
Lemma driving_total_snoc (driver_pk : Z) (day : date)
    (objects : ELDLog.table) (row : ELDLog.row) (entry : LogData) :
  ELDLog.driver row = driver_pk ->
  ELDLog.log_date row = log_date entry ->
  ELDLog.duty_status row = duty_status entry ->
  ELDLog.duration_hours row = duration_hours entry ->
  driving_total driver_pk day (objects ++ [row])
  + driving_hours_on day [] 
  == driving_total driver_pk day objects + driving_hours_on day [entry].
Proof.
  intros Hdriver Hdate Hduty Hduration.
  unfold driving_total, driving_hours_on, on_date, is_driving.
  rewrite sum_duration_app. simpl.
  rewrite Hdriver, Hdate, Hduty, Hduration, Z.eqb_refl. simpl.
  destruct (log_date entry =? day)%Z, (String.eqb _ _); simpl; lra.
Qed.

(** Storing entries none of which is negative, for a driver whose stored
    Driving and the entries' Driving stay within eleven hours on every date:
    all are stored when all are positive, and "Duration must be positive" is
    raised otherwise. *)
Lemma create_logs_outcome (trip_pk driver_pk : Z) (entries : list LogData) :
  forall objects : ELDLog.table,
    Forall (fun entry => 0 <= duration_hours entry) entries ->
    (forall day,
       driving_total driver_pk day objects + driving_hours_on day entries
       <= 11) ->
    (Forall (fun entry => 0 < duration_hours entry) entries
     /\ exists objects',
          TripViewSet.create_logs objects trip_pk driver_pk entries
          = Ret objects'
          /\ length objects' = (length objects + length entries)%nat)
    \/ (~ Forall (fun entry => 0 < duration_hours entry) entries
        /\ TripViewSet.create_logs objects trip_pk driver_pk entries
           = Raise (ValidationError "Duration must be positive")).
Proof.
  induction entries as [|entry rest IH]; intros objects Hnonneg Hlimit.
  - left. split; [constructor|]. exists objects. simpl.
    split; [reflexivity|lia].
  - inversion Hnonneg as [|? ? Hentry Hrest]; subst.
    cbn [TripViewSet.create_logs].
    destruct (Qlt_le_dec 0 (duration_hours entry)) as [Hpos|Hzero].
    + pose proof (sum_hours_nonneg
                    (fun e => on_date (log_date entry) e && is_driving e)
                    rest Hrest) as Hlater.
      destruct (create_accepts objects trip_pk driver_pk entry Hpos)
        as (row & -> & Hdriver & Hdate & Hduty & Hduration).
      { intros Hdriving. specialize (Hlimit (log_date entry)).
        unfold driving_hours_on in Hlimit. simpl in Hlimit.
        unfold on_date at 1 in Hlimit.
        rewrite Z.eqb_refl, Hdriving in Hlimit. simpl in Hlimit. lra. }
      cbn [py_bind].
      destruct (IH (objects ++ [row]) Hrest) as [[Hall Hstored]|[Hsome Hfail]].
      * intros day. specialize (Hlimit day).
        pose proof (driving_total_snoc driver_pk day objects row entry
                      Hdriver Hdate Hduty Hduration) as Hsnoc.
        unfold driving_hours_on in *. simpl in *.
        destruct (on_date day entry && is_driving entry); lra.
      * left. split; [now constructor|].
        destruct Hstored as (objects' & -> & Hlength).
        exists objects'. split; [reflexivity|].
        rewrite Hlength, length_app. simpl. lia.
      * right. split; [|exact Hfail].
        intros Hall. apply Hsome. now inversion Hall.
    + right. split.
      * intros Hall. inversion Hall; subst. lra.
      * now rewrite create_rejects_duration.
Qed.

End StoringLogs.

Section PlanDurations.

Variable trip : Trip.
Variable current_date : date.

Lemma daily_logs_nonneg (day : date) (hours : Q) (first : bool) :
  0 <= hours ->
  Forall (fun entry => 0 <= duration_hours entry)
         (_generate_daily_logs day hours first).
Proof.
  intros Hhours. unfold _generate_daily_logs.
  destruct first, (Qle_bool hours 8) eqn:Hshort; simpl;
    try (apply Qle_bool_gt in Hshort);
    repeat (apply Forall_cons; split); try apply Forall_nil_2;
    cbn [duration_hours]; lra.
Qed.

Lemma daily_logs_positive (day : date) (hours : Q) (first : bool) :
  0 < hours ->
  Forall (fun entry => 0 < duration_hours entry)
         (_generate_daily_logs day hours first).
Proof.
  intros Hhours. unfold _generate_daily_logs.
  destruct first, (Qle_bool hours 8) eqn:Hshort; simpl;
    try (apply Qle_bool_gt in Hshort);
    repeat (apply Forall_cons; split); try apply Forall_nil_2;
    cbn [duration_hours]; lra.
Qed.

Lemma logs_of_days_nonneg (count : nat) :
  forall (day : Z) (remaining : Q),
    0 <= remaining ->
    Forall (fun entry => 0 <= duration_hours entry)
           (Schedule.logs_of_days trip current_date count day remaining).
Proof.
  induction count as [|count IH]; intros day remaining Hrem; simpl.
  - constructor.
  - apply Forall_app. split.
    + apply daily_logs_nonneg. now apply daily_nonneg.
    + apply IH.
      pose proof (daily_at_most_remaining trip day remaining). lra.
Qed.

(** With eleven hours or more of the cycle left, every day of the count has
    hours to drive when the hours exceed eleven a day for all days but
    one. *)
Lemma logs_of_days_positive (count : nat) :
  11 <= 70 - current_cycle_used_hours trip ->
  forall (day : Z) (remaining : Q),
    11 * inject_Z (Z.of_nat count) < remaining + 11 ->
    0 < remaining \/ count = 0%nat ->
    Forall (fun entry => 0 < duration_hours entry)
           (Schedule.logs_of_days trip current_date count day remaining).
Proof.
  intros Hcycle.
  induction count as [|count IH]; intros day remaining Hcover Hsome; simpl.
  - constructor.
  - destruct Hsome as [Hrem|]; [|discriminate].
    rewrite Nat2Z.inj_succ, <- Z.add_1_r, inject_Z_plus in Hcover.
    change (inject_Z 1) with 1 in Hcover.
    assert (daily_drive_hours trip day remaining == Qmin remaining 11)
      as Hdaily.
    { unfold daily_drive_hours, MAX_DRIVING_HOURS_DAILY, MAX_CYCLE_HOURS.
      destruct (day =? 0)%Z; elim_minmax; lra. }
    apply Forall_app. split.
    + apply daily_logs_positive. rewrite Hdaily. elim_minmax. lra.
    + apply IH.
      * rewrite Hdaily. elim_minmax. 
        assert (0 <= inject_Z (Z.of_nat count)) as Hcount
          by (change 0 with (inject_Z 0); rewrite <- Zle_Qle; lia).
        lra.
      * destruct count as [|count]; [now right|left].
        rewrite Nat2Z.inj_succ, <- Z.add_1_r, inject_Z_plus in Hcover.
        change (inject_Z 1) with 1 in Hcover.
        assert (0 <= inject_Z (Z.of_nat count)) as Hcount
          by (change 0 with (inject_Z 0); rewrite <- Zle_Qle; lia).
        rewrite Hdaily. elim_minmax. lra.
Qed.

End PlanDurations.

(** No date of a returned plan has more than eleven hours of Driving. *)
Lemma plan_driving_within_limit (trip : Trip) (current_date : date)
    (plan : CompliancePlan) (day : date) :
  generate_compliance_plan trip current_date = Ret plan ->
  driving_hours_on day (eld_logs plan) <= 11.
Proof.
  intros Hplan.
  apply generate_compliance_plan_inv in Hplan as (_ & _ & _ & ->).
  apply logs_of_days_limits. lia.
Qed.





Section SavingRows.

(** What a successful [save] of a fresh row amounts to: the row passed
    [clean], and it was appended with its end time and a key. *)
Lemma save_insert_inv (objects objects' : ELDLog.table)
    (self : ELDLog.row) :
  ELDLog.pk self = None ->
  ELDLog.save objects self = Ret objects' ->
  exists ending key,
    objects'
    = objects ++ [ELDLog.with_pk (ELDLog.with_end_time self ending) key]
    /\ 0 < ELDLog.duration_hours self
    /\ (ELDLog.duty_status self = "driving" ->
        driving_total (ELDLog.driver self) (ELDLog.log_date self) objects
        + ELDLog.duration_hours self <= 11)
    /\ ending
       = match ELDLog.end_time self with
         | Some given => Some given
         | None => Some (ELDLog.derived_end_time self)
         end.
Proof.
  intros Hpk Hsave.
  assert (forall ending,
            ELDLog.clean objects (ELDLog.with_end_time self ending) = Ret tt ->
            0 < ELDLog.duration_hours self
            /\ (ELDLog.duty_status self = "driving" ->
                driving_total (ELDLog.driver self) (ELDLog.log_date self)
                  objects + ELDLog.duration_hours self <= 11)) as Hclean.
  { intros ending. unfold ELDLog.clean, ELDLog.with_end_time.
    cbn [ELDLog.duration_hours ELDLog.duty_status ELDLog.pk].
    destruct (Qle_bool (ELDLog.duration_hours self) 0) eqn:Hpos;
      [discriminate|].
    apply Qle_bool_gt in Hpos. intros Hpass. split; [exact Hpos|].
    intros Hduty. rewrite Hduty in Hpass. simpl in Hpass.
    rewrite (sum_duration_ext _
               (fun r => (ELDLog.driver r =? ELDLog.driver self)%Z
                         && (ELDLog.log_date r =? ELDLog.log_date self)%Z
                         && String.eqb (ELDLog.duty_status r) "driving"))
      in Hpass.
    - fold (driving_total (ELDLog.driver self) (ELDLog.log_date self)
              objects) in Hpass.
      destruct (Qltb 11 _) eqn:Hover; [discriminate|].
      now apply Qltb_ge in Hover.
    - intros r. unfold ELDLog.same_day_driving, ELDLog.pk_is. simpl.
      rewrite Hpk. now rewrite andb_true_r. }
  unfold ELDLog.save in Hsave.
  assert (forall ending,
            (do _ <- ELDLog.clean objects (ELDLog.with_end_time self ending) ;
             Ret (ELDLog.store objects (ELDLog.with_end_time self ending)))
            = Ret objects' ->
            objects'
            = objects
              ++ [ELDLog.with_pk (ELDLog.with_end_time self ending)
                    (ELDLog.next_pk objects)]
            /\ ELDLog.clean objects (ELDLog.with_end_time self ending)
               = Ret tt) as Hstore.
  { intros ending Hbind.
    apply py_bind_inv in Hbind as ([] & Hpass & Hret).
    injection Hret as <-. split; [|exact Hpass].
    unfold ELDLog.store, ELDLog.with_end_time. simpl. now rewrite Hpk. }
  destruct (ELDLog.end_time self) as [given|] eqn:Hend.
  - rewrite <- (with_end_time_same self), Hend in Hsave.
    apply Hstore in Hsave as [-> Hpass].
    exists (Some given), (ELDLog.next_pk objects).
    split; [reflexivity|]. destruct (Hclean _ Hpass). now repeat split.
  - destruct (Qeq_bool (ELDLog.duration_hours self) 0) eqn:Hzero.
    + rewrite <- (with_end_time_same self), Hend in Hsave.
      apply Hstore in Hsave as [_ Hpass].
      destruct (Hclean _ Hpass) as [Hpos _].
      apply Qeq_bool_iff in Hzero. lra.
    + apply Hstore in Hsave as [-> Hpass].
      exists (Some (ELDLog.derived_end_time self)), (ELDLog.next_pk objects).
      split; [reflexivity|]. destruct (Hclean _ Hpass). now repeat split.
Qed.

End SavingRows.

Section TimeOfDay.

(** Splitting a number of microseconds within the day into a time, and
    back. *)
Lemma microseconds_round_trip (us : Z) :
  (0 <= us < ELDLog.microseconds_per_day)%Z ->
  valid_time (ELDLog.microseconds_to_time us)
  /\ ELDLog.time_to_microseconds (ELDLog.microseconds_to_time us) = us.
Proof.
  unfold ELDLog.microseconds_per_day, valid_time,
    ELDLog.time_to_microseconds, ELDLog.microseconds_to_time.
  cbn [hour minute second microsecond].
  intros Hrange. Z.to_euclidean_division_equations. lia.
Qed.

Lemma round_half_even_nonneg (x : Q) :
  0 <= x -> (0 <= ELDLog.round_half_even x)%Z.
Proof.
  intros Hx. unfold ELDLog.round_half_even.
  apply (Qfloor_resp_le (inject_Z 0)) in Hx. rewrite Qfloor_Z in Hx.
  destruct (Qltb _ _); [exact Hx|].
  destruct (Qltb _ _); [lia|].
  destruct (Z.even _); lia.
Qed.

End TimeOfDay.









(** * Further properties of the views *)

Section SaveAccepts.

(** A fresh row of positive duration that keeps the driver's day within
    eleven hours of Driving is stored. *)
Lemma save_accepts (objects : ELDLog.table) (self : ELDLog.row) :
  ELDLog.pk self = None ->
  0 < ELDLog.duration_hours self ->
  (ELDLog.duty_status self = "driving" ->
   driving_total (ELDLog.driver self) (ELDLog.log_date self) objects
   + ELDLog.duration_hours self <= 11) ->
  exists ending key,
    ELDLog.save objects self
    = Ret (objects
           ++ [ELDLog.with_pk (ELDLog.with_end_time self ending) key]).
Proof.
  intros Hpk Hpos Hlimit.
  assert (forall ending,
            ELDLog.clean objects (ELDLog.with_end_time self ending)
            = Ret tt) as Hclean.
  { intros ending. unfold ELDLog.clean, ELDLog.with_end_time.
    cbn [ELDLog.duration_hours ELDLog.duty_status ELDLog.pk].
    assert (Qle_bool (ELDLog.duration_hours self) 0 = false) as ->
      by (apply Qle_bool_gt; exact Hpos).
    destruct (String.eqb (ELDLog.duty_status self) "driving") eqn:Hduty;
      [|reflexivity].
    apply String.eqb_eq in Hduty. specialize (Hlimit Hduty).
    rewrite (sum_duration_ext _
               (fun r => (ELDLog.driver r =? ELDLog.driver self)%Z
                         && (ELDLog.log_date r =? ELDLog.log_date self)%Z
                         && String.eqb (ELDLog.duty_status r) "driving")).
    - fold (driving_total (ELDLog.driver self) (ELDLog.log_date self)
              objects).
      assert (Qltb 11 (driving_total (ELDLog.driver self)
                         (ELDLog.log_date self) objects
                       + ELDLog.duration_hours self) = false) as ->
        by (now apply Qltb_ge).
      reflexivity.
    - intros r. unfold ELDLog.same_day_driving, ELDLog.pk_is. simpl.
      rewrite Hpk. now rewrite andb_true_r. }
  assert (forall ending,
            ELDLog.store objects (ELDLog.with_end_time self ending)
            = objects
              ++ [ELDLog.with_pk (ELDLog.with_end_time self ending)
                    (ELDLog.next_pk objects)]) as Hstore.
  { intros ending. unfold ELDLog.store, ELDLog.with_end_time. simpl.
    now rewrite Hpk. }
  pose proof (Hclean (ELDLog.end_time self)) as Hself.
  pose proof (Hstore (ELDLog.end_time self)) as Hself'.
  rewrite with_end_time_same in Hself.
  rewrite with_end_time_same in Hself' at 1.
  unfold ELDLog.save.
  destruct (ELDLog.end_time self) as [given|];
    [|destruct (Qeq_bool (ELDLog.duration_hours self) 0)];
    rewrite ?Hself, ?Hclean; cbn [py_bind];
    rewrite ?Hself', ?Hstore; do 2 eexists; reflexivity.
Qed.

End SaveAccepts.

(** X13.  [start_trip] reopens any trip.  After it, [cancel_trip] and
    [end_trip] both succeed, also on a trip that was completed or cancelled
    before: the two refusals of these actions do not outlast a call of
    [start_trip]. *)
Theorem start_trip_reopens
    (now later : datetime) (pk : Z) (db : TripViewSet.Database)
    (trip : Trip) :
  TripViewSet.trips db !! pk = Some trip ->
  let reopened := fst (TripViewSet.start_trip now pk db) in
  (exists cancelled,
     TripViewSet.cancel_trip later pk reopened
     = (TripViewSet.save_trip reopened pk cancelled,
        Ret (TripViewSet.mk_Response 200 "status"
               "Trip cancelled successfully"))
     /\ status cancelled = "cancelled"
     /\ trip_start_time cancelled = Some now
     /\ trip_end_time cancelled = Some later)
  /\ (exists completed,
        TripViewSet.end_trip later pk reopened
        = (TripViewSet.save_trip reopened pk completed,
           Ret (TripViewSet.mk_Response 200 "status"
                  "Trip started successfully"))
        /\ status completed = "completed"
        /\ trip_start_time completed = Some now
        /\ trip_end_time completed = Some later).
Proof.
  intros Hfound reopened.
  assert (TripViewSet.trips reopened !! pk
          = Some (TripViewSet.set_started trip now)) as Hreopened.
  { unfold reopened, TripViewSet.start_trip, TripViewSet.get_object.
    rewrite Hfound. simpl. apply lookup_insert_eq. }
  unfold TripViewSet.cancel_trip, TripViewSet.end_trip,
    TripViewSet.get_object.
  rewrite Hreopened. simpl.
  split; eexists; (split; [reflexivity|]); repeat split.
Qed.

Lemma start_trip_reopens_completed_trip :
  status Scenario.completed_trip = "completed"
  /\ exists cancelled,
       TripViewSet.cancel_trip Scenario.now 7
         (fst (TripViewSet.start_trip Scenario.now 7 Scenario.one_trip))
       = (TripViewSet.save_trip
            (fst (TripViewSet.start_trip Scenario.now 7 Scenario.one_trip))
            7 cancelled,
          Ret (TripViewSet.mk_Response 200 "status"
                 "Trip cancelled successfully"))
       /\ status cancelled = "cancelled".
Proof.
  split; [reflexivity|].
  destruct (start_trip_reopens Scenario.now Scenario.now 7
              Scenario.one_trip Scenario.completed_trip)
    as ((cancelled & Hresult & Hstatus & _) & _); [reflexivity|].
  exists cancelled. split; assumption.
Defined.

(** X14.  The three trip actions touch one trip only: the log table and
    every other trip are as before, and for a key without a trip the action
    changes nothing and leaves with [Http404].  [add_log] catches that
    exception: for such a key it stores nothing and answers 400. *)
Theorem trip_actions_frame
    (now : datetime) (pk : Z) (db : TripViewSet.Database) :
  let actions :=
    [TripViewSet.start_trip; TripViewSet.end_trip;
     TripViewSet.cancel_trip] in
  Forall (fun action =>
            TripViewSet.logs (fst (action now pk db)) = TripViewSet.logs db
            /\ (forall other,
                  other <> pk ->
                  TripViewSet.trips (fst (action now pk db)) !! other
                  = TripViewSet.trips db !! other)
            /\ (TripViewSet.trips db !! pk = None ->
                action now pk db = (db, Raise Http404)))
         actions
  /\ (TripViewSet.trips db !! pk = None ->
      forall validate request_data,
        TripViewSet.add_log validate request_data pk db
        = (db, Ret (TripViewSet.mk_Response 400 "error"
                      (TripViewSet.exn_str Http404)))).
Proof.
  intros actions. unfold actions. split.
  - repeat (apply Forall_cons; split); try apply Forall_nil_2;
      unfold TripViewSet.start_trip, TripViewSet.end_trip,
        TripViewSet.cancel_trip, TripViewSet.get_object;
      destruct (TripViewSet.trips db !! pk) as [trip|] eqn:Hfound;
      try destruct (String.eqb (status trip) _);
      simpl; repeat split; try discriminate;
      intros other Hother; now rewrite lookup_insert_ne.
  - intros Hmissing validate request_data.
    unfold TripViewSet.add_log, TripViewSet.add_log_body,
      TripViewSet.get_object.
    now rewrite Hmissing.
Qed.



(** X19.  The date arithmetic of [save] comes before [clean].  A fresh row
    without an end time whose hours reach past the last day of the calendar
    makes [save] raise [OverflowError], whatever [clean] would have said of
    it, and nothing is stored; [add_log] turns the exception into a 400. *)
Theorem save_beyond_calendar
    (objects : ELDLog.table) (self : ELDLog.row) :
  ELDLog.end_time self = None ->
  valid_time (ELDLog.start_time self) ->
  (ELDLog.log_date self <= Machine.date_max)%Z ->
  inject_Z (24 * (Machine.date_max - ELDLog.log_date self + 1))
  <= ELDLog.duration_hours self ->
  exists message,
    Machine.ELDLog.save objects self = Raise (OverflowError message).
Proof.
  intros Hend Hstart Hdate Hhours.
  assert (0 < ELDLog.duration_hours self) as Hpos.
  { eapply Qlt_le_trans; [|exact Hhours].
    change 0 with (inject_Z 0). rewrite <- Zlt_Qlt.
    unfold Machine.date_max in *. lia. }
  unfold Machine.ELDLog.save. rewrite Hend.
  assert (Qeq_bool (ELDLog.duration_hours self) 0 = false) as ->.
  { destruct (Qeq_bool _ 0) eqn:Hzero; [|reflexivity].
    apply Qeq_bool_iff in Hzero. lra. }
  unfold Machine.ELDLog.derived_end_time, Machine.ELDLog.timedelta_hours.
  destruct (_ <? _)%Z; [eexists; reflexivity|].
  cbn [py_bind]. unfold Machine.ELDLog.datetime_add.
  set (delta := ELDLog.round_half_even
                  (ELDLog.duration_hours self * 3600000000)).
  assert ((Machine.date_max - ELDLog.log_date self + 1)
          * ELDLog.microseconds_per_day <= delta)%Z as Hdelta.
  { rewrite <- (round_half_even_Z
                  ((Machine.date_max - ELDLog.log_date self + 1)
                   * ELDLog.microseconds_per_day)).
    apply round_half_even_le.
    unfold ELDLog.microseconds_per_day.
    rewrite inject_Z_mult in *.
    change (inject_Z 24) with 24 in Hhours.
    change (inject_Z 86400000000) with 86400000000. lra. }
  assert (0 <= ELDLog.time_to_microseconds (ELDLog.start_time self))%Z
    as Hbegin.
  { unfold valid_time in Hstart. unfold ELDLog.time_to_microseconds. lia. }
  assert ((ELDLog.log_date self
           + (ELDLog.time_to_microseconds (ELDLog.start_time self) + delta)
             / ELDLog.microseconds_per_day <=? Machine.date_max)%Z
          = false) as ->.
  { apply Z.leb_gt.
    unfold ELDLog.microseconds_per_day, Machine.date_max in *.
    Z.to_euclidean_division_equations. lia. }
  rewrite andb_false_r. eexists; reflexivity.
Qed.

Lemma save_beyond_calendar_endless_shift :
  exists message,
    Machine.ELDLog.save Scenario.long_day Scenario.endless_shift
    = Raise (OverflowError message).
Proof.
  apply save_beyond_calendar;
    [reflexivity|unfold valid_time; simpl; lia|discriminate|discriminate].
Defined.

(** * Further properties of the route service *)

Section ProviderRoute.
Import RouteCalculatorService.

Lemma swap_coords_geojson (points : list (Q * Q * Q)) :
  swap_coords (map geojson_point points)
  = Some (map (fun point =>
                 (JNum (snd (fst point)), JNum (fst (fst point))))
              points).
Proof.
  induction points as [|[[lng_deg lat_deg] elevation] points IH];
    [reflexivity|].
  cbn [map swap_coords]. rewrite IH. reflexivity.
Qed.

(** One step that cannot be parsed makes the whole list fail. *)
Lemma parse_steps_fails (steps : list json) (step : json) :
  In step steps -> _parse_step step = None -> _parse_steps steps = None.
Proof.
  intros Hin Hstep.
  induction steps as [|head rest IH]; [contradiction|].
  cbn [_parse_steps].
  destruct Hin as [->|Hin].
  - now rewrite Hstep.
  - destruct (_parse_step head); [|reflexivity]. simpl.
    now rewrite (IH Hin).
Qed.

(** The [try] block on a document of the expected shape. *)
Lemma primary_route_geojson (points : list (Q * Q * Q))
    (distance duration : json) (steps : list json) :
  primary_route
    (DirectionsReturned true
       (Some (geojson_response points distance duration steps)))
  = match _parse_steps steps with
    | Some parsed =>
        Some (mk_RouteData
                (map (fun point =>
                        (JNum (snd (fst point)), JNum (fst (fst point))))
                     points)
                distance duration parsed)
    | None => None
    end.
Proof.
  unfold primary_route, geojson_response. simpl.
  rewrite swap_coords_geojson. simpl.
  unfold _parse_instructions. simpl.
  now destruct (_parse_steps steps).
Qed.

End ProviderRoute.



(** X17.  One bad step costs the whole provider route: when a step of an
    otherwise well-formed document has an instruction but no distance, the
    route service drops the provider's geometry, distance and duration and
    returns the geodesic fallback. *)
Theorem step_without_distance_discards_route
    (geodesic_miles : Q * Q -> Q * Q -> Q)
    (points : list (Q * Q * Q)) (distance duration : json)
    (steps : list json) (entries : list (string * json))
    (instruction : json)
    (current pickup dropoff : RouteCalculatorService.Coordinate) :
  In (JDict entries) steps ->
  dict_get "instruction" entries = Some instruction ->
  dict_get "distance" entries = None ->
  RouteCalculatorService.calculate_route geodesic_miles
    (RouteCalculatorService.DirectionsReturned true
       (Some (geojson_response points distance duration steps)))
    current pickup dropoff
  = RouteCalculatorService._calculate_fallback_route geodesic_miles
      current pickup dropoff.
Proof.
  intros Hin Hinstruction Hdistance.
  apply calculate_route_fallback.
  rewrite primary_route_geojson.
  rewrite (parse_steps_fails steps (JDict entries) Hin); [reflexivity|].
  unfold RouteCalculatorService._parse_step. simpl.
  now rewrite Hinstruction, Hdistance.
Qed.

Lemma step_without_distance_discards_route_broken_step :
  RouteCalculatorService.calculate_route (fun _ _ => 0)
    (RouteCalculatorService.DirectionsReturned true
       (Some (geojson_response [(-75, 40, 12); (-80, 41, 300)]
                (JNum 350) (JNum 6)
                (Scenario.two_steps ++ [Scenario.broken_step]))))
    Scenario.here Scenario.here Scenario.here
  = RouteCalculatorService._calculate_fallback_route (fun _ _ => 0)
      Scenario.here Scenario.here Scenario.here.
Proof.
  apply (step_without_distance_discards_route (fun _ _ => 0)
           [(-75, 40, 12); (-80, 41, 300)] (JNum 350) (JNum 6)
           (Scenario.two_steps ++ [Scenario.broken_step])
           [("instruction", JStr "Turn left")] (JStr "Turn left"));
    [|reflexivity|reflexivity].
  right. right. left. reflexivity.
Defined.

(** * Where the stops are placed *)

Section StopLocations.

Variable trip : Trip.
Variable current_date : date.

(** The location of the stop comes from [_interpolate_location] on the
    polyline of the trip. *)
Let located (stop : RestStopData) : Prop :=
  exists progress,
    location stop = _interpolate_location (route_coordinates trip) progress.

Lemma plan_day_located (day : Z) (st st' : loop_state) :
  Forall located (st_rest_stops st) ->
  plan_day trip current_date day st = Ret st' ->
  Forall located (st_rest_stops st').
Proof.
  intros Hstops Hday. unfold plan_day in Hday.
  apply py_bind_inv in Hday as (stops1 & Hbreak & Hday).
  apply py_bind_inv in Hday as (stops2 & Hfuel & Hday).
  apply py_bind_inv in Hday as (share & _ & Hday).
  apply py_bind_inv in Hday as (stops3 & Hrest & Hday).
  injection Hday as <-. simpl.
  assert (Forall located stops1) as Hstops1.
  { destruct (Qltb 8 _).
    - apply py_bind_inv in Hbreak as (part & _ & Hbreak).
      apply py_bind_inv in Hbreak as (progress & _ & Hbreak).
      injection Hbreak as <-.
      apply Forall_app. split; [exact Hstops|].
      repeat constructor. now exists progress.
    - now injection Hbreak as <-. }
  assert (Forall located stops2) as Hstops2.
  { destruct (_ && _).
    - apply py_bind_inv in Hfuel as (progress & _ & Hfuel).
      injection Hfuel as <-.
      apply Forall_app. split; [exact Hstops1|].
      repeat constructor. now exists progress.
    - now injection Hfuel as <-. }
  destruct (Qltb 0 (remaining_drive_hours st - _)).
  - apply py_bind_inv in Hrest as (progress & _ & Hrest).
    injection Hrest as <-.
    apply Forall_app. split; [exact Hstops2|].
    repeat constructor. now exists progress.
  - now injection Hrest as <-.
Qed.

Lemma plan_days_located (count : nat) :
  forall (day : Z) (st st' : loop_state),
    Forall located (st_rest_stops st) ->
    plan_days trip current_date count day st = Ret st' ->
    Forall located (st_rest_stops st').
Proof.
  induction count as [|count IH]; intros day st st' Hstops Hloop;
    simpl in Hloop.
  - now injection Hloop as <-.
  - apply py_bind_inv in Hloop as (mid & Hday & Hloop).
    exact (IH _ _ _ (plan_day_located day st mid Hstops Hday) Hloop).
Qed.

Lemma generate_compliance_plan_located (plan : CompliancePlan) :
  generate_compliance_plan trip current_date = Ret plan ->
  Forall located (rest_stops plan).
Proof.
  intros Hplan. unfold generate_compliance_plan in Hplan.
  apply py_bind_inv in Hplan as (ratio & _ & Hplan).
  apply py_bind_inv in Hplan as (final & Hloop & Hplan).
  injection Hplan as <-. simpl.
  apply plan_days_located in Hloop; [exact Hloop|constructor].
Qed.

End StopLocations.

(** X18.  The stops of a plan are placed on vertices of the polyline, never
    between two of them: over a polyline that is not empty, the latitude and
    longitude of every stop are those of one of its points. *)
Theorem stops_placed_on_route_points (trip : Trip) (current_date : date) :
  route_coordinates trip <> [] ->
  forall plan,
    generate_compliance_plan trip current_date = Ret plan ->
    Forall (fun stop =>
              exists point,
                In point (route_coordinates trip)
                /\ lat (location stop) = fst point
                /\ lng (location stop) = snd point)
           (rest_stops plan).
Proof.
  intros Hroute plan Hplan.
  eapply Forall_impl;
    [apply (generate_compliance_plan_located trip current_date plan Hplan)|].
  simpl. intros stop (progress & ->).
  destruct (interpolate_at_index (route_coordinates trip) Hroute progress)
    as (point & Hpoint & Hlat & Hlng).
  exists point. split; [|split; assumption].
  apply list_elem_of_In. eapply list_elem_of_lookup_2. exact Hpoint.
Qed.

Lemma stops_placed_on_route_points_two_day_trip :
  exists plan,
    generate_compliance_plan Scenario.two_day_trip Scenario.today = Ret plan
    /\ Forall (fun stop =>
                 exists point,
                   In point Scenario.three_points
                   /\ lat (location stop) = fst point
                   /\ lng (location stop) = snd point)
              (rest_stops plan).
Proof.
  destruct (generate_compliance_plan Scenario.two_day_trip Scenario.today)
    as [plan|e] eqn:Hplan; [|vm_compute in Hplan; discriminate Hplan].
  exists plan. split; [reflexivity|].
  apply (stops_placed_on_route_points Scenario.two_day_trip Scenario.today);
    [discriminate|exact Hplan].
Defined.
